(** * Lab_2_4_LR2: linear regression by normal equation and gradient descent

    A shallow embedding of [src/Lab_2_4_LR2.py]: the [LinearRegressor] class
    ([fit], [fit_multiple], [fit_gradient_descent], [predict]) and the two
    module functions [evaluate_regression] and [one_hot_encode].

    - NumPy's float64 is Rocq's primitive binary64 [float]; NaN and the
      infinities behave as in IEEE 754.
    - A 1-D array is a [list]; a 2-D array is a [matrix]: its rows together
      with its column count, so that the shape [(0, n)] is representable.
    - Python exceptions are values of [exn]; a call that can raise returns a
      [result].  Methods of the class run in the monad [M], which threads the
      object, the random source and the output (print and plot calls), and
      keeps the state reached when an exception escapes.
    - [np.linalg.pinv] belongs to NumPy and is a parameter of [fit_multiple].
    - [np.sum] and [np.mean] reduce as NumPy does: pairwise, with eight
      partial sums from eight entries on and a split in halves above 128.
    - The products behind [dot] are rounded one by one and added from left
      to right, starting from [0.0]; the BLAS routine that NumPy calls may
      order or fuse them otherwise, so the last bits of a product are not
      what the theorems below rest on.
    - [learning_rate] is a Python [float], as the docstrings and the default
      [0.01] have it.
    - Of the matplotlib calls, the figure sizes and colours are left out. *)

From Stdlib Require Import String Ascii ZArith Bool Lia Uint63 Floats List.
From Stdlib Require Import Sorted OrdersEx RelationClasses.
Import ListNotations.

Set Warnings "-inexact-float".

Local Open Scope string_scope.
Local Open Scope list_scope.

(* ================================================================= *)
(** ** Exceptions and results *)

(** The messages of the [ValueError]s that the program and NumPy raise. *)
Inductive value_error :=
| method_not_available (method : string)  (* fit: "Method ... not available" *)
| model_not_fitted                        (* predict: "Model is not yet fitted" *)
| shapes_not_aligned                      (* np.dot on mismatched shapes *)
| operands_not_broadcast                  (* elementwise op on mismatched shapes *)
| need_at_least_one_array                 (* np.column_stack([]) *)
| dimensions_must_match                   (* np.column_stack on unequal lengths *)
| could_not_convert (s : string).         (* astype(float) on a non-number *)

Inductive exn :=
| ValueError (e : value_error)
| IndexError
| ZeroDivisionError
| TypeError
| UnboundLocalError (name : string)
| LinAlgError.

Inductive result (A : Type) :=
| Ok (a : A)
| Raise (e : exn).
Arguments Ok {A} a.
Arguments Raise {A} e.

Definition rbind {A B} (r : result A) (k : A -> result B) : result B :=
  match r with
  | Ok a => k a
  | Raise e => Raise e
  end.

Declare Scope result_scope.
Delimit Scope result_scope with result.
Notation "x <- c ;; k" := (rbind c (fun x => k))
  (at level 61, c at next level, right associativity) : result_scope.

(* ================================================================= *)
(** ** float64 scalars and 1-D arrays *)

Module Np.

Local Open Scope float_scope.

(** [float(n)] for a Python int that is a length or a count, hence below
    [2^63]. *)
Definition float_of_nat (n : nat) : float :=
  of_uint63 (Uint63.of_Z (Z.of_nat n)).

(** The unrolled loop of NumPy's pairwise summation: eight partial sums,
    each taking every eighth entry while eight entries remain.  It returns
    [((r0 + r1) + (r2 + r3)) + ((r4 + r5) + (r6 + r7))] and the entries left
    over. *)
Fixpoint unrolled_add (r0 r1 r2 r3 r4 r5 r6 r7 : float) (a : list float)
  : float * list float :=
  match a with
  | a0 :: a1 :: a2 :: a3 :: a4 :: a5 :: a6 :: a7 :: a' =>
      unrolled_add (r0 + a0) (r1 + a1) (r2 + a2) (r3 + a3)
                   (r4 + a4) (r5 + a5) (r6 + a6) (r7 + a7) a'
  | _ => (((r0 + r1) + (r2 + r3)) + ((r4 + r5) + (r6 + r7)), a)
  end.

(** A block of at most [PW_BLOCKSIZE] entries.  Fewer than eight are added
    one by one, starting from [-0.0] (from [0.0] in older releases of
    NumPy, to the same [np.sum]: [sum_short] below); otherwise the first
    eight start the partial sums, and the entries left over by the unrolled
    loop are added to their total one by one. *)
Definition block_sum (a : list float) : float :=
  match a with
  | a0 :: a1 :: a2 :: a3 :: a4 :: a5 :: a6 :: a7 :: a' =>
      let (res, rest) := unrolled_add a0 a1 a2 a3 a4 a5 a6 a7 a' in
      fold_left PrimFloat.add rest res
  | _ => fold_left PrimFloat.add a neg_zero
  end.

Definition PW_BLOCKSIZE : nat := 128.

(** NumPy's [pairwise_sum]: above [PW_BLOCKSIZE] entries the array is cut
    at half its length, rounded down to a multiple of eight, and the sums of
    the two parts are added.  [depth] bounds the nesting of the cuts; the
    length of the array is always enough ([pairwise_sum_depth] below). *)
Fixpoint pairwise_sum (depth : nat) (a : list float) : float :=
  let n := length a in
  match depth with
  | S d =>
      if (n <=? PW_BLOCKSIZE)%nat then block_sum a
      else
        let n2 := (n / 2 - (n / 2) mod 8)%nat in
        pairwise_sum d (firstn n2 a) + pairwise_sum d (skipn n2 a)
  | O => block_sum a
  end.

(** [np.sum(v)], that is [np.add.reduce(v)]: the pairwise sum of [v] added
    to the identity [0.0] ([0.0] when [v] is empty). *)
Definition sum (v : list float) : float := 0 + pairwise_sum (length v) v.

(** [np.mean(v)]: the sum divided by the number of entries ([nan] when empty). *)
Definition mean (v : list float) : float := sum v / float_of_nat (length v).

(** Pairing of two arrays of one length, entry by entry. *)
Fixpoint zip_with {A B C} (f : A -> B -> C) (u : list A) (v : list B) : list C :=
  match u, v with
  | a :: u', b :: v' => f a b :: zip_with f u' v'
  | _, _ => []
  end.

(** An elementwise binary operator on two 1-D arrays, with NumPy's
    broadcasting: equal lengths pair up, a length-1 operand is stretched,
    anything else raises. *)
Definition broadcast (f : float -> float -> float) (u v : list float)
  : result (list float) :=
  if (length u =? length v)%nat then Ok (zip_with f u v)
  else match u, v with
       | [a], _ => Ok (map (f a) v)
       | _, [b] => Ok (map (fun x => f x b) u)
       | _, _ => Raise (ValueError operands_not_broadcast)
       end.

Definition subtract := broadcast PrimFloat.sub.
Definition multiply := broadcast PrimFloat.mul.

(** [u -= v]: in place, so [v] must broadcast to the shape of [u]. *)
Definition isub (u v : list float) : result (list float) :=
  if (length u =? length v)%nat then Ok (zip_with PrimFloat.sub u v)
  else match v with
       | [b] => Ok (map (fun x => x - b) u)
       | _ => Raise (ValueError operands_not_broadcast)
       end.

(** [v ** 2] *)
Definition square (v : list float) : list float := map (fun x => x * x) v.

(** Inner product of two 1-D arrays of one length, as [dot] forms it for
    each entry of its result: the products, added from left to right. *)
Definition inner (u v : list float) : float :=
  fold_left PrimFloat.add (zip_with PrimFloat.mul u v) 0.

(** [v[0]] *)
Definition item0 (v : list float) : result float :=
  match v with
  | x :: _ => Ok x
  | [] => Raise IndexError
  end.

(** Python's [a / n] for a Python float [a] and an int [n]: a zero divisor
    raises.  (A NumPy float64 scalar would divide to an infinity or NaN
    instead; [learning_rate] is a Python float.) *)
Definition py_div (a : float) (n : nat) : result float :=
  match n with
  | O => Raise ZeroDivisionError
  | _ => Ok (a / float_of_nat n)
  end.

End Np.

(* ================================================================= *)
(** ** 2-D arrays *)

Record matrix (A : Type) := mk_matrix {
  n_cols : nat;
  rows : list (list A)
}.
Arguments mk_matrix {A} n_cols rows.
Arguments n_cols {A} m.
Arguments rows {A} m.

Definition n_rows {A} (X : matrix A) : nat := length (rows X).

(** Every row has [n_cols] entries. *)
Definition wf {A} (X : matrix A) : Prop :=
  Forall (fun r => length r = n_cols X) (rows X).

Definition wfb {A} (X : matrix A) : bool :=
  forallb (fun r => (length r =? n_cols X)%nat) (rows X).

(** [X[:, j]] *)
Definition column {A} (j : nat) (X : matrix A) : list A :=
  flat_map (fun r => match nth_error r j with Some a => [a] | None => [] end)
           (rows X).

(** The columns of [X], left to right. *)
Definition columns {A} (X : matrix A) : list (list A) :=
  map (fun j => column j X) (seq 0 (n_cols X)).

(** [X.T] *)
Definition transpose {A} (X : matrix A) : matrix A :=
  mk_matrix (n_rows X) (columns X).

(** [X.reshape(-1, 1)] of a 1-D array. *)
Definition reshape_col {A} (v : list A) : matrix A :=
  mk_matrix 1 (map (fun x => [x]) v).

Module Mat.

Local Open Scope float_scope.
Local Open Scope result_scope.

(** [np.c_[np.ones((X.shape[0], 1)), X]] *)
Definition c_ones (X : matrix float) : matrix float :=
  mk_matrix (S (n_cols X)) (map (cons 1) (rows X)).

(** [A.dot(v)] for a 2-D [A] and a 1-D [v]. *)
Definition dot_vec (A : matrix float) (v : list float) : result (list float) :=
  if (n_cols A =? length v)%nat
  then Ok (map (fun r => Np.inner r v) (rows A))
  else Raise (ValueError shapes_not_aligned).

(** [A.dot(B)] for 2-D [A] and [B]. *)
Definition dot (A B : matrix float) : result (matrix float) :=
  if (n_cols A =? n_rows B)%nat
  then Ok (mk_matrix (n_cols B)
             (map (fun r => map (fun c => Np.inner r c) (columns B)) (rows A)))
  else Raise (ValueError shapes_not_aligned).

End Mat.

(* ================================================================= *)
(** ** The object, the random source and the output *)

(** [LinearRegressor]: both fields are [None] until a fit assigns them. *)
Record LinearRegressor := mk_regressor {
  coefficients : option (list float);
  intercept : option float
}.

(** [LinearRegressor.__init__] *)
Definition init : LinearRegressor := mk_regressor None None.

(** Texts handed to matplotlib; the two f-strings keep their number. *)
Inductive caption :=
| text (s : string)
| coefficient_label (k : Z)     (* f"Coefficient {k}" *)
| coefficient_title (k : Z).    (* f"Coefficient {k} Updates" *)

(** What the program prints and what it asks matplotlib to draw. *)
Inductive output :=
| print_mse (epoch : Z) (mse : float)   (* print(f"Epoch {epoch}: MSE = {mse}") *)
| plt_figure
| plt_plot_xy (xs : list Z) (ys : list float) (label : caption)
| plt_plot_y (ys : list float) (label : caption)
| plt_xlabel (c : caption)
| plt_ylabel (c : caption)
| plt_title (c : caption)
| plt_legend
| plt_show.

Record world := mk_world {
  self : LinearRegressor;
  draws : nat -> float;    (* the values [np.random.rand] is going to return *)
  drawn : nat;             (* how many of them have been consumed *)
  out : list output
}.

(** A method call: it returns or raises, and leaves a world either way. *)
Definition M (A : Type) : Type := world -> result A * world.

Definition ret {A} (a : A) : M A := fun w => (Ok a, w).

Definition raise {A} (e : exn) : M A := fun w => (Raise e, w).

Definition bind {A B} (c : M A) (k : A -> M B) : M B :=
  fun w => match c w with
           | (Ok a, w') => k a w'
           | (Raise e, w') => (Raise e, w')
           end.

Definition lift {A} (r : result A) : M A := fun w => (r, w).

Declare Scope method_scope.
Delimit Scope method_scope with method.
Notation "x <- c ;; k" := (bind c (fun x => k))
  (at level 61, c at next level, right associativity) : method_scope.
Notation "c ;; k" := (bind c (fun _ => k))
  (at level 61, right associativity) : method_scope.

Definition with_self (w : world) (s : LinearRegressor) : world :=
  mk_world s (draws w) (drawn w) (out w).

Definition get_self : M LinearRegressor := fun w => (Ok (self w), w).

Definition set_coefficients (c : list float) : M unit :=
  fun w => (Ok tt, with_self w (mk_regressor (Some c) (intercept (self w)))).

Definition set_intercept (b : float) : M unit :=
  fun w => (Ok tt, with_self w (mk_regressor (coefficients (self w)) (Some b))).

Definition emit (l : list output) : M unit :=
  fun w => (Ok tt, mk_world (self w) (draws w) (drawn w) (out w ++ l)).

(** [np.random.rand()] *)
Definition random_rand : M float :=
  fun w => (Ok (draws w (drawn w)),
            mk_world (self w) (draws w) (S (drawn w)) (out w)).

(** [np.random.rand(n)] *)
Definition random_rand_n (n : nat) : M (list float) :=
  fun w => (Ok (map (draws w) (seq (drawn w) n)),
            mk_world (self w) (draws w) (drawn w + n) (out w)).

(** [for a in l: s = body(a, s)] *)
Fixpoint for_each {A S} (l : list A) (body : A -> S -> M S) (s : S) : M S :=
  match l with
  | [] => ret s
  | a :: l' => bind (body a s) (for_each l' body)
  end.

(** [range(n)] *)
Definition py_range (n : Z) : list Z := map Z.of_nat (seq 0 (Z.to_nat n)).

(** The argument [X] of [fit] and [predict]: [np.ndim(X)] is 1 or 2. *)
Inductive ndarray :=
| Arr1 (v : list float)
| Arr2 (X : matrix float).

(* ================================================================= *)
(** ** [LinearRegressor.predict] *)

Local Open Scope method_scope.

Definition predict (X : ndarray) : M (list float) :=
  s <- get_self ;;
  match coefficients s, intercept s with
  | Some c, Some b =>
      match X with
      | Arr1 v =>
          c0 <- lift (Np.item0 c) ;;
          ret (map (fun x => b + c0 * x)%float v)
      | Arr2 X =>
          let X_b := Mat.c_ones X in
          lift (Mat.dot_vec X_b (b :: c))
      end
  | _, _ => raise (ValueError model_not_fitted)
  end.

(* ================================================================= *)
(** ** [LinearRegressor.fit_gradient_descent] *)

(** The local variables that outlive an epoch.  [training_history] is bound
    by the first epoch only: [None] stands for the unbound name. *)
Record gd_locals := mk_locals {
  history_intercept : list float;
  history_coefficients : list (list float);
  training_history : option (list Z * list float)
}.

(** One pass of the body of [for epoch in range(iterations)]. *)
Definition gd_epoch (X : matrix float) (y : list float) (learning_rate : float)
    (epoch : Z) (loc : gd_locals) : M gd_locals :=
  let m := n_rows X in
  predictions <- predict (Arr2 X) ;;
  error <- lift (Np.subtract predictions y) ;;
  k <- lift (Np.py_div (2 * learning_rate)%float m) ;;
  xe <- lift (Mat.dot_vec (transpose X) error) ;;
  let gradient_coefficients := map (PrimFloat.mul k) xe in
  k' <- lift (Np.py_div (2 * learning_rate)%float m) ;;
  let gradient_intercept := (k' * Np.sum error)%float in
  s <- get_self ;;
  b <- lift (match intercept s with Some b => Ok b | None => Raise TypeError end) ;;
  set_intercept (b - gradient_intercept)%float ;;
  s <- get_self ;;
  c <- lift (match coefficients s with Some c => Ok c | None => Raise TypeError end) ;;
  c' <- lift (Np.isub c gradient_coefficients) ;;
  set_coefficients c' ;;
  let hi := history_intercept loc ++ [(b - gradient_intercept)%float] in
  let hc := history_coefficients loc ++ [c'] in
  if (epoch mod 10 =? 0)%Z then
    let mse := Np.mean (Np.square error) in
    emit [print_mse epoch mse] ;;
    let th := if (epoch =? 0)%Z then Some ([], []) else training_history loc in
    match th with
    | Some (epochs, mses) =>
        ret (mk_locals hi hc (Some (epochs ++ [epoch], mses ++ [mse])))
    | None => raise (UnboundLocalError "training_history")
    end
  else ret (mk_locals hi hc (training_history loc)).

(** Initialisation and the loop: everything before the plots. *)
Definition gd_train (X : matrix float) (y : list float) (learning_rate : float)
    (iterations : Z) : M gd_locals :=
  let n := n_cols X in
  c <- random_rand_n n ;;
  set_coefficients (map (fun u => u * 0.01)%float c) ;;
  b <- random_rand ;;
  set_intercept (b * 0.01)%float ;;
  for_each (py_range iterations) (gd_epoch X y learning_rate)
           (mk_locals [] [] None).

(** [[coef[i] for coef in history["coefficients"]]] *)
Fixpoint coefficient_trace (i : nat) (h : list (list float)) : result (list float) :=
  match h with
  | [] => Ok []
  | coef :: h' =>
      match nth_error coef i with
      | Some x => rbind (coefficient_trace i h') (fun t => Ok (x :: t))
      | None => Raise IndexError
      end
  end.

(** The plots at the end of [fit_gradient_descent]. *)
Definition gd_plots (loc : gd_locals) : M unit :=
  emit [plt_figure] ;;
  th <- lift (match training_history loc with
              | Some th => Ok th
              | None => Raise (UnboundLocalError "training_history")
              end) ;;
  emit [plt_plot_xy (fst th) (snd th) (text "MSE");
        plt_xlabel (text "Epoch"); plt_ylabel (text "Mean Squared Error");
        plt_title (text "Training History"); plt_legend; plt_show] ;;
  h0 <- lift (match history_coefficients loc with
              | coef :: _ => Ok coef
              | [] => Raise IndexError
              end) ;;
  let num_coefficients := Z.of_nat (length h0) in
  emit [plt_figure; plt_plot_y (history_intercept loc) (text "Intercept");
        plt_xlabel (text "Iteration"); plt_ylabel (text "Value");
        plt_title (text "Intercept Updates"); plt_legend] ;;
  for_each (py_range num_coefficients)
    (fun i _ =>
       emit [plt_figure] ;;
       t <- lift (coefficient_trace (Z.to_nat i) (history_coefficients loc)) ;;
       emit [plt_plot_y t (coefficient_label (i + 1));
             plt_xlabel (text "Iteration"); plt_ylabel (text "Value");
             plt_title (coefficient_title (i + 1)); plt_legend; plt_show])
    tt.

Definition fit_gradient_descent (X : matrix float) (y : list float)
    (learning_rate : float) (iterations : Z) : M unit :=
  loc <- gd_train X y learning_rate iterations ;;
  gd_plots loc.

(* ================================================================= *)
(** ** [LinearRegressor.fit_multiple] and [LinearRegressor.fit] *)

Section Fitting.

(** [np.linalg.pinv]: NumPy's pseudo-inverse, which raises [LinAlgError]
    when its SVD does not converge. *)
Variable pinv : matrix float -> result (matrix float).

Definition fit_multiple (X : matrix float) (y : list float) : M unit :=
  let X_b := Mat.c_ones X in
  theta_best <-
    lift (G <- Mat.dot (transpose X_b) X_b ;;
          P <- pinv G ;;
          Q <- Mat.dot P (transpose X_b) ;;
          Mat.dot_vec Q y)%result ;;
  b <- lift (Np.item0 theta_best) ;;
  set_intercept b ;;
  set_coefficients (tl theta_best).

Definition fit (X : ndarray) (y : list float) (method : string)
    (learning_rate : float) (iterations : Z) : M unit :=
  if negb (existsb (String.eqb method) ["least_squares"; "gradient_descent"])
  then raise (ValueError (method_not_available method))
  else
    let X := match X with
             | Arr1 v => reshape_col v
             | Arr2 X => X
             end in
    if (method =? "least_squares")%string then fit_multiple X y
    else if (method =? "gradient_descent")%string
         then fit_gradient_descent X y learning_rate iterations
         else ret tt.

End Fitting.

(** The defaults of [fit]'s keyword arguments. *)
Definition default_method : string := "least_squares".
Definition default_learning_rate : float := 0.01%float.
Definition default_iterations : Z := 1000.

(* ================================================================= *)
(** ** [evaluate_regression] *)

Local Open Scope result_scope.

(** The returned dict, in insertion order. *)
Definition evaluate_regression (y_true y_pred : list float)
  : result (list (string * float)) :=
  (* R^2 Score *)
  d <- Np.subtract y_true y_pred ;;
  d' <- Np.subtract y_true y_pred ;;
  sq <- Np.multiply d d' ;;
  let ss_res := Np.sum sq in
  let c := map (fun v => v - Np.mean y_true)%float y_true in
  let c' := map (fun v => v - Np.mean y_true)%float y_true in
  csq <- Np.multiply c c' ;;
  let ss_tot := Np.sum csq in
  let r_squared := (1 - ss_res / ss_tot)%float in
  (* Root Mean Squared Error *)
  e <- Np.subtract y_true y_pred ;;
  let rmse := PrimFloat.sqrt (Np.mean (Np.square e)) in
  (* Mean Absolute Error *)
  a <- Np.subtract y_true y_pred ;;
  let mae := Np.mean (map PrimFloat.abs a) in
  Ok [("R2", r_squared); ("RMSE", rmse); ("MAE", mae)].

(** [SS_tot] of a vector, as [evaluate_regression] accumulates it. *)
Definition ss_tot (y : list float) : float :=
  Np.sum (map (fun v => (v - Np.mean y) * (v - Np.mean y))%float y).

(* ================================================================= *)
(** ** [one_hot_encode] *)

(** What the encoder asks of the element type of [X]: the elementwise [==],
    the order [np.unique] sorts by, and the conversion behind
    [astype(float)]. *)
Class Dtype (C : Type) := {
  elem_eqb : C -> C -> bool;
  elem_ltb : C -> C -> bool;
  elem_float : C -> result float
}.

(** The element types on which [==] is equality and the order is strict and
    total, as on strings. *)
Class LawfulDtype (C : Type) `{Dtype C} := {
  elem_eqb_eq : forall a b, elem_eqb a b = true <-> a = b;
  elem_ltb_irrefl : forall a, elem_ltb a a = false;
  elem_ltb_trans : forall a b c,
      elem_ltb a b = true -> elem_ltb b c = true -> elem_ltb a c = true;
  elem_ltb_total : forall a b,
      elem_ltb a b = false -> elem_eqb a b = false -> elem_ltb b a = true
}.

Section Encoder.

Context {C : Type} `{Dtype C}.

(** Insertion into a sorted array without repeats. *)
Fixpoint insert_unique (x : C) (l : list C) : list C :=
  match l with
  | [] => [x]
  | y :: l' =>
      if elem_ltb x y then x :: l
      else if elem_eqb x y then l
      else y :: insert_unique x l'
  end.

(** [np.unique(v)]: the distinct entries of [v], sorted. *)
Definition unique (v : list C) : list C := fold_right insert_unique [] v.

(** [v.astype(float)] *)
Fixpoint astype_float (v : list C) : result (list float) :=
  match v with
  | [] => Ok []
  | x :: v' => f <- elem_float x ;; t <- astype_float v' ;; Ok (f :: t)
  end.

(** [(v == category).astype(float)] *)
Definition indicator (v : list C) (category : C) : list float :=
  map (fun x => if elem_eqb x category then 1%float else 0%float) v.

(** [np.column_stack(cols)] of 1-D arrays. *)
Definition column_stack (cols : list (list float)) : result (matrix float) :=
  match cols with
  | [] => Raise (ValueError need_at_least_one_array)
  | c :: _ =>
      if forallb (fun c' => (length c' =? length c)%nat) cols
      then Ok (transpose (mk_matrix (length c) cols))
      else Raise (ValueError dimensions_must_match)
  end.

(** [for a in l: s = body(a, s)], for a function that has no object. *)
Fixpoint for_each_r {A S} (l : list A) (body : A -> S -> result S) (s : S)
  : result S :=
  match l with
  | [] => Ok s
  | a :: l' => rbind (body a s) (for_each_r l' body)
  end.

(** The body of [for i in range(X.shape[1])]. *)
Definition encode_step (X : matrix C) (categorical_indices : list Z)
    (drop_first : bool) (i : Z) (X_transformed : list (list float))
  : result (list (list float)) :=
  let col := column (Z.to_nat i) X in
  if existsb (Z.eqb i) categorical_indices then
    let categories := unique col in
    let categories := if drop_first then tl categories else categories in
    for_each_r categories
      (fun category acc => Ok (acc ++ [indicator col category]))
      X_transformed
  else
    c <- astype_float col ;;
    Ok (X_transformed ++ [c]).

Definition one_hot_encode (X : matrix C) (categorical_indices : list Z)
    (drop_first : bool) : result (matrix float) :=
  X_transformed <-
    for_each_r (py_range (Z.of_nat (n_cols X)))
      (encode_step X categorical_indices drop_first) [] ;;
  column_stack X_transformed.

End Encoder.

(** Arrays of strings: [==] compares the texts, [np.unique] sorts them
    lexicographically by character code, and [astype(float)] parses each one
    with Python's [float], given here as [float_of_str]. *)
Definition str_ltb (a b : string) : bool :=
  match String_as_OT.compare a b with
  | Lt => true
  | _ => false
  end.

Definition str_dtype (float_of_str : string -> option float) : Dtype string := {|
  elem_eqb := String.eqb;
  elem_ltb := str_ltb;
  elem_float s := match float_of_str s with
                  | Some f => Ok f
                  | None => Raise (ValueError (could_not_convert s))
                  end
|}.

(** A conversion for running examples: it reads a text of one to fifteen
    decimal digits, on which it agrees with Python's [float], and rejects
    every other text. *)
Fixpoint digits_value (s : string) (acc : Z) : option Z :=
  match s with
  | EmptyString => Some acc
  | String a s' =>
      let d := Z.of_N (N_of_ascii a) in
      if ((48 <=? d) && (d <=? 57))%Z
      then digits_value s' (10 * acc + (d - 48))
      else None
  end.

Definition float_of_digits (s : string) : option float :=
  if ((1 <=? String.length s) && (String.length s <=? 15))%nat
  then option_map (fun z => of_uint63 (Uint63.of_Z z)) (digits_value s 0)
  else None.

(* ================================================================= *)
(** ** Reference definitions used in the statements *)

Module Ref.

Local Open Scope float_scope.

(** Matrix product and matrix-vector product as formulas, with no shape
    test. *)
Definition mat_mul (A B : matrix float) : matrix float :=
  mk_matrix (n_cols B)
    (map (fun r => map (fun c => Np.inner r c) (columns B)) (rows A)).

Definition mat_vec (A : matrix float) (v : list float) : list float :=
  map (fun r => Np.inner r v) (rows A).

(** [X_b^T X_b] for [X_b = [1 | X]]. *)
Definition gram (X : matrix float) : matrix float :=
  mat_mul (transpose (Mat.c_ones X)) (Mat.c_ones X).

(** [theta = P . X_b^T . y], where [P] is the pseudo-inverse of [gram X]. *)
Definition normal_equation (P X : matrix float) (y : list float) : list float :=
  mat_vec (mat_mul P (transpose (Mat.c_ones X))) y.

(** The residual [predictions - y] at the parameters [(b, c)]. *)
Definition residual (X : matrix float) (y : list float) (p : float * list float)
  : list float :=
  Np.zip_with PrimFloat.sub
    (map (fun r => Np.inner (1 :: r) (fst p :: snd p)) (rows X)) y.

(** One epoch of gradient descent on the parameters (intercept first):
    both gradients carry the factor [2 * learning_rate / N] and are
    subtracted as they are. *)
Definition gd_step (X : matrix float) (y : list float) (learning_rate : float)
    (p : float * list float) : float * list float :=
  let N := Np.float_of_nat (n_rows X) in
  let r := residual X y p in
  let intercept_gradient := (2 * learning_rate / N) * Np.sum r in
  let coefficient_gradient :=
    map (fun x_j => (2 * learning_rate / N) * Np.inner x_j r) (columns X) in
  (fst p - intercept_gradient,
   Np.zip_with PrimFloat.sub (snd p) coefficient_gradient).

(** The parameters that [fit_gradient_descent] draws before its loop. *)
Definition gd_start (w : world) (n : nat) : float * list float :=
  (draws w (drawn w + n) * 0.01,
   map (fun u => u * 0.01) (map (draws w) (seq (drawn w) n))).

(** The parameters after [k] epochs. *)
Definition gd_params (X : matrix float) (y : list float) (learning_rate : float)
    (p0 : float * list float) (k : nat) : float * list float :=
  Nat.iter k (gd_step X y learning_rate) p0.

Definition fitted (p : float * list float) : LinearRegressor :=
  mk_regressor (Some (snd p)) (Some (fst p)).

(** The lines printed for a logged MSE trace. *)
Definition prints (th : option (list Z * list float)) : list output :=
  match th with
  | Some (epochs, mses) => Np.zip_with print_mse epochs mses
  | None => []
  end.

(** The MSE trace after an epoch whose residual has mean square [mse]. *)
Definition log_mse (epoch : Z) (mse : float) (th : option (list Z * list float))
  : option (list Z * list float) :=
  if (epoch mod 10 =? 0)%Z then
    match (if (epoch =? 0)%Z then Some ([], []) else th) with
    | Some (epochs, mses) => Some (epochs ++ [epoch], mses ++ [mse])
    | None => None
    end
  else th.

Definition paired (th : option (list Z * list float)) : Prop :=
  match th with
  | Some (epochs, mses) => length epochs = length mses
  | None => True
  end.

(** What [fit_gradient_descent] hands to matplotlib. *)
Definition training_plot (epochs : list Z) (mses : list float) : list output :=
  [plt_figure; plt_plot_xy epochs mses (text "MSE");
   plt_xlabel (text "Epoch"); plt_ylabel (text "Mean Squared Error");
   plt_title (text "Training History"); plt_legend; plt_show].

Definition intercept_plot (hi : list float) : list output :=
  [plt_figure; plt_plot_y hi (text "Intercept");
   plt_xlabel (text "Iteration"); plt_ylabel (text "Value");
   plt_title (text "Intercept Updates"); plt_legend].

Definition coefficient_plot (hc : list (list float)) (i : nat) : list output :=
  [plt_figure;
   plt_plot_y (map (fun coef => nth i coef 0) hc)
              (coefficient_label (Z.of_nat i + 1));
   plt_xlabel (text "Iteration"); plt_ylabel (text "Value");
   plt_title (coefficient_title (Z.of_nat i + 1)); plt_legend; plt_show].

Definition plots (epochs : list Z) (mses : list float) (hi : list float)
    (hc : list (list float)) (n : nat) : list output :=
  training_plot epochs mses ++ intercept_plot hi
  ++ flat_map (coefficient_plot hc) (seq 0 n).

End Ref.

(** The traces would be retrievable if some function of what a successful
    [fit_gradient_descent] hands back, its return value and the object's
    fields, gave the locals of the run. *)
Definition traces_retrievable : Prop :=
  exists retrieve : result unit -> LinearRegressor -> gd_locals,
    forall X y learning_rate iterations w loc,
      fst (gd_train X y learning_rate iterations w) = Ok loc ->
      fst (fit_gradient_descent X y learning_rate iterations w) = Ok tt ->
      retrieve (fst (fit_gradient_descent X y learning_rate iterations w))
               (self (snd (fit_gradient_descent X y learning_rate iterations w)))
      = loc.

(** [X] as [fit] hands it on: a 1-D array becomes a single column. *)
Definition as_2d (X : ndarray) : matrix float :=
  match X with
  | Arr1 v => reshape_col v
  | Arr2 X => X
  end.

(** The pseudo-inverse of a square diagonal matrix: the reciprocals of its
    non-zero diagonal entries.  Other matrices are outside its domain. *)
Definition map_indexed {A B} (f : nat -> A -> B) (l : list A) : list B :=
  map (fun ia => f (fst ia) (snd ia)) (combine (seq 0 (length l)) l).

Definition is_diagonal (A : matrix float) : bool :=
  forallb (fun b => b)
    (map_indexed (fun i r =>
       forallb (fun b => b)
         (map_indexed (fun j a => (i =? j)%nat || (a =? 0)%float) r))
       (rows A)).

Definition pinv_diag (A : matrix float) : result (matrix float) :=
  if wfb A && (n_rows A =? n_cols A)%nat && is_diagonal A
  then Ok (mk_matrix (n_cols A)
             (map_indexed (fun i r =>
                map_indexed (fun j a =>
                  if (i =? j)%nat && negb (a =? 0)%float
                  then (1 / a)%float else 0%float) r)
                (rows A)))
  else Raise LinAlgError.

(** The encoder, column by column: what column [i] of [X] contributes to the
    output.  [numeric i] is column [i] cast to float. *)
Section EncoderRef.

Context {C : Type} `{Dtype C}.

Definition is_categorical (categorical_indices : list Z) (i : nat) : bool :=
  existsb (Z.eqb (Z.of_nat i)) categorical_indices.

(** The categories of a column that get an indicator column. *)
Definition kept_categories (drop_first : bool) (col : list C) : list C :=
  if drop_first then tl (unique col) else unique col.

Definition encoded_block (X : matrix C) (categorical_indices : list Z)
    (drop_first : bool) (numeric : nat -> list float) (i : nat)
  : list (list float) :=
  if is_categorical categorical_indices i
  then map (indicator (column i X)) (kept_categories drop_first (column i X))
  else [numeric i].

Definition encoded_columns (X : matrix C) (categorical_indices : list Z)
    (drop_first : bool) (numeric : nat -> list float) : list (list float) :=
  flat_map (encoded_block X categorical_indices drop_first numeric)
           (seq 0 (n_cols X)).

End EncoderRef.

(** A world whose model has parameters for [n] features, reached from [w]
    without touching the random source. *)
Definition gd_state (n : nat) (w w' : world) : Prop :=
  (exists b c, self w' = mk_regressor (Some c) (Some b) /\ length c = n) /\
  draws w' = draws w /\ drawn w' = drawn w.

(** The mean squared residual at the parameters [p]. *)
Definition mse_at (X : matrix float) (y : list float) (p : float * list float)
  : float :=
  Np.mean (Np.square (Ref.residual X y p)).

(** The epochs below [n] that are multiples of ten. *)
Definition logged_epochs (n : nat) : list nat :=
  filter (fun k => (Z.of_nat k mod 10 =? 0)%Z) (seq 0 n).

(** A matrix entry by entry. *)
Definition map_matrix {A B} (f : A -> B) (X : matrix A) : matrix B :=
  mk_matrix (n_cols X) (map (map f) (rows X)).

(* ================================================================= *)
(** ** Lists and shapes *)

Lemma zip_with_length {A B C} (f : A -> B -> C) u v :
  length (Np.zip_with f u v) = Nat.min (length u) (length v).
Proof.
  revert v; induction u as [|a u IH]; intros [|b v]; simpl; auto.
Qed.

Lemma zip_with_same {A C} (f : A -> A -> C) u :
  Np.zip_with f u u = map (fun a => f a a) u.
Proof. induction u; simpl; congruence. Qed.

Lemma columns_length {A} (X : matrix A) : length (columns X) = n_cols X.
Proof. unfold columns. now rewrite length_map, length_seq. Qed.

Lemma broadcast_same_length f u v :
  length u = length v -> Np.broadcast f u v = Ok (Np.zip_with f u v).
Proof. intros E. unfold Np.broadcast. now rewrite E, Nat.eqb_refl. Qed.

Lemma isub_same_length u v :
  length u = length v -> Np.isub u v = Ok (Np.zip_with PrimFloat.sub u v).
Proof. intros E. unfold Np.isub. now rewrite E, Nat.eqb_refl. Qed.

Lemma dot_vec_aligned A v :
  n_cols A = length v -> Mat.dot_vec A v = Ok (Ref.mat_vec A v).
Proof. intros E. unfold Mat.dot_vec. now rewrite E, Nat.eqb_refl. Qed.

Lemma dot_vec_misaligned A v :
  n_cols A <> length v -> Mat.dot_vec A v = Raise (ValueError shapes_not_aligned).
Proof.
  intros E. unfold Mat.dot_vec. apply Nat.eqb_neq in E. now rewrite E.
Qed.

Lemma dot_aligned A B :
  n_cols A = n_rows B -> Mat.dot A B = Ok (Ref.mat_mul A B).
Proof. intros E. unfold Mat.dot. now rewrite E, Nat.eqb_refl. Qed.

Lemma mat_vec_length A v : length (Ref.mat_vec A v) = n_rows A.
Proof. unfold Ref.mat_vec. now rewrite length_map. Qed.

(** Unfolding of the monad's combinators in a goal. *)
Ltac run :=
  unfold bind, ret, raise, lift, get_self, set_coefficients, set_intercept,
    emit, with_self; simpl.

(* ================================================================= *)
(** ** [predict] *)

Lemma predict_unfitted X w :
  coefficients (self w) = None \/ intercept (self w) = None ->
  predict X w = (Raise (ValueError model_not_fitted), w).
Proof.
  intros [E|E]; unfold predict; run; rewrite E; auto.
  destruct (coefficients (self w)); reflexivity.
Qed.

Lemma predict_2d X w b c :
  self w = mk_regressor (Some c) (Some b) ->
  predict (Arr2 X) w = (Mat.dot_vec (Mat.c_ones X) (b :: c), w).
Proof. intros E. unfold predict; run. now rewrite E. Qed.

Lemma mat_vec_c_ones X v :
  Ref.mat_vec (Mat.c_ones X) v = map (fun r => Np.inner (1%float :: r) v) (rows X).
Proof. unfold Ref.mat_vec, Mat.c_ones; simpl. now rewrite map_map. Qed.

(** C9. On an estimator whose parameters are still undefined (either field
    is [None], as both are after [__init__]), every call to [predict] raises
    the "Model is not yet fitted" error and changes nothing. *)
Theorem predict_not_fitted (X : ndarray) (w : world) :
  coefficients (self w) = None \/ intercept (self w) = None ->
  fst (predict X w) = Raise (ValueError model_not_fitted) /\
  snd (predict X w) = w.
Proof. intros E. now rewrite (predict_unfitted X w E). Qed.

Lemma predict_not_fitted_init :
  (coefficients (self (mk_world init (fun _ => 0%float) 0 [])) = None \/
   intercept (self (mk_world init (fun _ => 0%float) 0 [])) = None) /\
  fst (predict (Arr1 [1%float; 2%float]) (mk_world init (fun _ => 0%float) 0 []))
  = Raise (ValueError model_not_fitted).
Proof.
  split; [left; reflexivity|].
  apply (predict_not_fitted (Arr1 [1%float; 2%float])
           (mk_world init (fun _ => 0%float) 0 [])).
  left; reflexivity.
Defined.

(** C7. On a fitted model, [predict] of a 1-D [X] is
    [intercept + coefficients[0] * x] for each entry [x], whatever the other
    coefficients are; [predict] of a 2-D [X] with one column per coefficient
    is, for each row [r], the inner product of [1 :: r] with
    [intercept :: coefficients], so it has one entry per row of [X].
    Neither changes the model. *)
Theorem predict_fitted (w : world) (b c0 : float) (cs : list float)
    (v : list float) (X : matrix float) :
  self w = mk_regressor (Some (c0 :: cs)) (Some b) ->
  n_cols X = length (c0 :: cs) ->
  predict (Arr1 v) w = (Ok (map (fun x => b + c0 * x)%float v), w) /\
  predict (Arr2 X) w
  = (Ok (map (fun r => Np.inner (1%float :: r) (b :: c0 :: cs)) (rows X)), w) /\
  length (map (fun r => Np.inner (1%float :: r) (b :: c0 :: cs)) (rows X))
  = n_rows X.
Proof.
  intros E Hn. split; [|split].
  - unfold predict; run. now rewrite E.
  - rewrite (predict_2d X w b (c0 :: cs) E), dot_vec_aligned.
    + now rewrite mat_vec_c_ones.
    + simpl in *. now rewrite Hn.
  - apply length_map.
Qed.

Lemma predict_fitted_example :
  let w := mk_world (mk_regressor (Some [2; 5]%float) (Some 3%float))
                    (fun _ => 0%float) 0 [] in
  let X := mk_matrix 2 [[1; 1]; [2; 0]]%float in
  predict (Arr1 [1; 2]%float) w = (Ok [5; 7]%float, w) /\
  predict (Arr2 X) w = (Ok [10; 7]%float, w).
Proof.
  intros w X.
  destruct (predict_fitted w 3%float 2%float [5%float] [1; 2]%float X
              eq_refl eq_refl) as (H1 & H2 & _).
  split; [exact H1 | exact H2].
Defined.

(* ================================================================= *)
(** ** [fit]: the method argument *)

Section FitDispatch.

Variable pinv : matrix float -> result (matrix float).

Lemma fit_invalid X y method lr it w :
  method <> "least_squares" -> method <> "gradient_descent" ->
  fit pinv X y method lr it w
  = (Raise (ValueError (method_not_available method)), w).
Proof.
  intros H1 H2. unfold fit. simpl.
  apply String.eqb_neq in H1, H2. now rewrite H1, H2.
Qed.

(** C8. [fit] with a method other than "least_squares" and
    "gradient_descent" raises the "Method ... not available" ValueError;
    with "least_squares" it is [fit_multiple], with "gradient_descent" it is
    [fit_gradient_descent] with the given learning rate and iteration count,
    each on [X] as a 2-D array. *)
Theorem fit_method (X : ndarray) (y : list float) (method : string)
    (lr : float) (it : Z) (w : world) :
  (method <> "least_squares" -> method <> "gradient_descent" ->
   fst (fit pinv X y method lr it w)
   = Raise (ValueError (method_not_available method))) /\
  fit pinv X y "least_squares" lr it w = fit_multiple pinv (as_2d X) y w /\
  fit pinv X y "gradient_descent" lr it w
  = fit_gradient_descent (as_2d X) y lr it w.
Proof.
  split; [|split].
  - intros H1 H2. now rewrite fit_invalid.
  - reflexivity.
  - reflexivity.
Qed.

(** C10. [fit] with an invalid method raises before it touches anything:
    the world after the call, and so the estimator's intercept and
    coefficients, undefined or fitted, is the world before it. *)
Theorem fit_invalid_method_atomic (X : ndarray) (y : list float)
    (method : string) (lr : float) (it : Z) (w : world) :
  method <> "least_squares" -> method <> "gradient_descent" ->
  snd (fit pinv X y method lr it w) = w /\
  intercept (self (snd (fit pinv X y method lr it w))) = intercept (self w) /\
  coefficients (self (snd (fit pinv X y method lr it w)))
  = coefficients (self w) /\
  exists e, fst (fit pinv X y method lr it w) = Raise e.
Proof.
  intros H1 H2. rewrite fit_invalid by assumption. simpl.
  repeat split; eauto.
Qed.

End FitDispatch.

Lemma fit_method_bogus :
  fst (fit pinv_diag (Arr1 [1; 2; 3]%float) [5; 8; 11]%float "bogus"
         default_learning_rate default_iterations
         (mk_world init (fun _ => 0.5%float) 0 []))
  = Raise (ValueError (method_not_available "bogus")).
Proof.
  apply (fit_method pinv_diag (Arr1 [1; 2; 3]%float) [5; 8; 11]%float "bogus"
           default_learning_rate default_iterations
           (mk_world init (fun _ => 0.5%float) 0 [])); discriminate.
Defined.

Lemma fit_invalid_method_atomic_fitted :
  intercept (self (snd (fit pinv_diag (Arr1 [1; 2; 3]%float) [5; 8; 11]%float
     "ridge" default_learning_rate default_iterations
     (mk_world (mk_regressor (Some [3%float]) (Some 2%float))
               (fun _ => 0.5%float) 0 []))))
  = Some 2%float /\
  coefficients (self (snd (fit pinv_diag (Arr1 [1; 2; 3]%float) [5; 8; 11]%float
     "ridge" default_learning_rate default_iterations
     (mk_world (mk_regressor (Some [3%float]) (Some 2%float))
               (fun _ => 0.5%float) 0 []))))
  = Some [3%float].
Proof.
  destruct (fit_invalid_method_atomic pinv_diag (Arr1 [1; 2; 3]%float)
              [5; 8; 11]%float "ridge" default_learning_rate default_iterations
              (mk_world (mk_regressor (Some [3%float]) (Some 2%float))
                        (fun _ => 0.5%float) 0 []))
    as (_ & Hi & Hc & _); try discriminate.
  split; [exact Hi | exact Hc].
Defined.

(* ================================================================= *)
(** ** [fit_multiple]: the normal equation *)

Section NormalEquation.

Variable pinv : matrix float -> result (matrix float).

(** The pseudo-inverse of an [r x c] matrix is [c x r]. *)
Hypothesis pinv_shape : forall A P,
  pinv A = Ok P -> n_cols P = n_rows A /\ n_rows P = n_cols A.

Lemma gram_shape X :
  n_rows (Ref.gram X) = S (n_cols X) /\ n_cols (Ref.gram X) = S (n_cols X).
Proof.
  unfold Ref.gram, Ref.mat_mul, n_rows, transpose; cbn [rows n_cols].
  rewrite length_map, columns_length. split; reflexivity.
Qed.

Lemma normal_equation_length P X y :
  length (Ref.normal_equation P X y) = n_rows P.
Proof.
  unfold Ref.normal_equation. rewrite mat_vec_length.
  unfold Ref.mat_mul, n_rows; simpl. now rewrite length_map.
Qed.

(** C1. For a 2-D [X] and a vector [y] with one entry per row of [X],
    [fit_multiple] puts a column of ones in front of [X], takes the
    pseudo-inverse [P] of [X_b^T X_b] and sets [theta = P . X_b^T . y],
    intercept [theta[0]] and coefficients [theta[1:]], one per column of
    [X].  Nothing but the pseudo-inverse itself can make it fail, so a
    singular [X_b^T X_b] is no obstacle; no random number is drawn, nothing
    is printed or plotted, and the result does not depend on the parameters
    held before. *)
Theorem fit_multiple_normal_equation (X : matrix float) (y : list float)
    (w : world) :
  length y = n_rows X ->
  match pinv (Ref.gram X) with
  | Ok P =>
      let theta := Ref.normal_equation P X y in
      fit_multiple pinv X y w
      = (Ok tt, with_self w (mk_regressor (Some (tl theta))
                                          (Some (hd 0%float theta)))) /\
      length theta = S (n_cols X) /\
      length (tl theta) = n_cols X
  | Raise e => fit_multiple pinv X y w = (Raise e, w)
  end.
Proof.
  intros Hy.
  assert (HG : Mat.dot (transpose (Mat.c_ones X)) (Mat.c_ones X)
               = Ok (Ref.gram X)).
  { apply dot_aligned. reflexivity. }
  destruct (pinv (Ref.gram X)) as [P|e] eqn:EP.
  - destruct (pinv_shape _ _ EP) as [HPc HPr].
    destruct (gram_shape X) as [HGr HGc].
    assert (HL : length (Ref.normal_equation P X y) = S (n_cols X)).
    { rewrite normal_equation_length. congruence. }
    cbv zeta. split; [|split]; auto.
    + unfold fit_multiple. run. rewrite HG. simpl. rewrite EP. simpl.
      rewrite dot_aligned.
      2:{ rewrite HPc, HGr. unfold n_rows, transpose; cbn [rows].
          now rewrite columns_length. }
      simpl. rewrite dot_vec_aligned.
      2:{ unfold Ref.mat_mul, transpose, n_rows, Mat.c_ones; cbn [n_cols rows].
          rewrite length_map. symmetry; exact Hy. }
      fold (Ref.normal_equation P X y).
      destruct (Ref.normal_equation P X y) as [|t0 t]; [discriminate|].
      reflexivity.
    + destruct (Ref.normal_equation P X y); simpl in *; lia.
  - unfold fit_multiple. run. rewrite HG. simpl. rewrite EP. reflexivity.
Qed.

End NormalEquation.

Lemma pinv_diag_shape A P :
  pinv_diag A = Ok P -> n_cols P = n_rows A /\ n_rows P = n_cols A.
Proof.
  unfold pinv_diag.
  destruct (wfb A && (n_rows A =? n_cols A)%nat && is_diagonal A) eqn:E;
    [|discriminate].
  intros [= <-]. apply andb_prop in E as [E _]. apply andb_prop in E as [_ E].
  apply Nat.eqb_eq in E. unfold n_rows, map_indexed in *; simpl.
  rewrite length_map, length_combine, length_seq, Nat.min_id. lia.
Qed.

(** A rank-deficient instance: [X] is the single zero [[0]], so
    [X_b^T X_b = [[1, 0], [0, 0]]] is singular. *)
Lemma fit_multiple_singular :
  length [3%float] = n_rows (mk_matrix 1 [[0%float]]) /\
  pinv_diag (Ref.gram (mk_matrix 1 [[0%float]]))
  = Ok (mk_matrix 2 [[1; 0]; [0; 0]]%float) /\
  fit_multiple pinv_diag (mk_matrix 1 [[0%float]]) [3%float]
    (mk_world init (fun _ => 0.5%float) 0 [])
  = (Ok tt, mk_world (mk_regressor (Some [0%float]) (Some 3%float))
                     (fun _ => 0.5%float) 0 []).
Proof.
  split; [reflexivity|]. split; [reflexivity|].
  exact (proj1 (fit_multiple_normal_equation pinv_diag pinv_diag_shape
                  (mk_matrix 1 [[0%float]]) [3%float]
                  (mk_world init (fun _ => 0.5%float) 0 []) eq_refl)).
Defined.

(* ================================================================= *)
(** ** [fit_gradient_descent]: the plots *)

Lemma coefficient_trace_ok i hc :
  Forall (fun coef => i < length coef) hc ->
  coefficient_trace i hc = Ok (map (fun coef => nth i coef 0%float) hc).
Proof.
  induction 1 as [|coef hc Hi _ IH]; simpl; auto.
  destruct (nth_error coef i) as [x|] eqn:E.
  - rewrite IH. simpl. now rewrite (nth_error_nth _ _ _ E).
  - apply nth_error_None in E. lia.
Qed.

Lemma coefficient_plots_run hc n : forall a w,
  Forall (fun coef => a + n <= length coef) hc ->
  for_each (map Z.of_nat (seq a n))
    (fun i _ =>
       emit [plt_figure] ;;
       t <- lift (coefficient_trace (Z.to_nat i) hc) ;;
       emit [plt_plot_y t (coefficient_label (i + 1));
             plt_xlabel (text "Iteration"); plt_ylabel (text "Value");
             plt_title (coefficient_title (i + 1)); plt_legend; plt_show])%method
    tt w
  = (Ok tt, mk_world (self w) (draws w) (drawn w)
                     (out w ++ flat_map (Ref.coefficient_plot hc) (seq a n))).
Proof.
  induction n as [|n IH]; intros a w Hlen.
  - simpl. unfold ret. rewrite app_nil_r. now destruct w.
  - cbn [seq map for_each flat_map].
    unfold bind at 1. unfold bind at 1. unfold emit at 1.
    unfold bind at 1. unfold lift at 1.
    rewrite Nat2Z.id, coefficient_trace_ok.
    2:{ eapply Forall_impl; [|exact Hlen]. simpl. intros; lia. }
    unfold emit at 1. cbn [self draws drawn out].
    rewrite IH.
    2:{ eapply Forall_impl; [|exact Hlen]. simpl. intros; lia. }
    cbn [self draws drawn out]. unfold Ref.coefficient_plot at 2.
    now rewrite <- !app_assoc.
Qed.

(** With a bound MSE trace and at least one snapshot, the plots are drawn
    and nothing else changes. *)
Lemma gd_plots_run loc w es ms h0 hrest :
  training_history loc = Some (es, ms) ->
  history_coefficients loc = h0 :: hrest ->
  Forall (fun coef => length coef = length h0) (history_coefficients loc) ->
  gd_plots loc w
  = (Ok tt, mk_world (self w) (draws w) (drawn w)
              (out w ++ Ref.plots es ms (history_intercept loc)
                           (history_coefficients loc) (length h0))).
Proof.
  intros Hth Hhc Hlen. unfold gd_plots.
  unfold bind at 1. unfold emit at 1.
  unfold bind at 1. unfold lift at 1. rewrite Hth.
  unfold bind at 1. unfold emit at 1.
  unfold bind at 1. unfold lift at 1. rewrite Hhc.
  unfold bind at 1. unfold emit at 1.
  unfold py_range. rewrite Nat2Z.id. rewrite <- Hhc.
  rewrite coefficient_plots_run.
  2:{ eapply Forall_impl; [|exact Hlen]. simpl. intros ? ->. lia. }
  cbn [self draws drawn out fst snd]. unfold Ref.plots, Ref.training_plot,
    Ref.intercept_plot. now rewrite <- !app_assoc.
Qed.

(** After zero epochs the name [training_history] is unbound. *)
Lemma gd_plots_unbound loc w :
  training_history loc = None ->
  gd_plots loc w
  = (Raise (UnboundLocalError "training_history"),
     mk_world (self w) (draws w) (drawn w) (out w ++ [plt_figure])).
Proof.
  intros Hth. unfold gd_plots.
  unfold bind at 1. unfold emit at 1.
  unfold bind at 1. unfold lift at 1. now rewrite Hth.
Qed.

(* ================================================================= *)
(** ** [fit_gradient_descent]: the epochs *)

Section GradientDescent.

Variables (X : matrix float) (y : list float) (learning_rate : float).

Hypothesis y_rows : length y = n_rows X.
Hypothesis some_rows : n_rows X <> 0.

Let step := Ref.gd_step X y learning_rate.
Let params := Ref.gd_params X y learning_rate.

Lemma gd_step_length p :
  length (snd p) = n_cols X -> length (snd (step p)) = n_cols X.
Proof.
  intros E. unfold step, Ref.gd_step; simpl.
  rewrite zip_with_length, length_map, columns_length. lia.
Qed.

Lemma gd_params_length p k :
  length (snd p) = n_cols X -> length (snd (params p k)) = n_cols X.
Proof.
  intros E. unfold params, Ref.gd_params.
  induction k; simpl; auto. now apply gd_step_length.
Qed.

Lemma py_div_rows a :
  Np.py_div a (n_rows X) = Ok (a / Np.float_of_nat (n_rows X))%float.
Proof. unfold Np.py_div. destruct (n_rows X); [contradiction|reflexivity]. Qed.

(** One epoch, from parameters of the right shape. *)
Lemma gd_epoch_run epoch loc w b c :
  self w = mk_regressor (Some c) (Some b) ->
  length c = n_cols X ->
  (epoch = 0%Z \/ training_history loc <> None) ->
  let mse := Np.mean (Np.square (Ref.residual X y (b, c))) in
  gd_epoch X y learning_rate epoch loc w
  = (Ok (mk_locals (history_intercept loc ++ [fst (step (b, c))])
                   (history_coefficients loc ++ [snd (step (b, c))])
                   (Ref.log_mse epoch mse (training_history loc))),
     mk_world (Ref.fitted (step (b, c))) (draws w) (drawn w)
              (if (epoch mod 10 =? 0)%Z
               then out w ++ [print_mse epoch mse] else out w)).
Proof.
  intros Hs Hc Hth mse.
  set (r := Ref.residual X y (b, c)) in *.
  assert (Hpred : length
            (map (fun r => Np.inner (1%float :: r) (b :: c)) (rows X))
          = length y).
  { rewrite length_map. symmetry; exact y_rows. }
  assert (Hr : length r = n_rows X).
  { unfold r, Ref.residual. cbn [fst snd]. rewrite zip_with_length, Hpred. lia. }
  assert (Hstep : step (b, c)
    = ((b - 2 * learning_rate / Np.float_of_nat (n_rows X) * Np.sum r)%float,
       Np.zip_with PrimFloat.sub c
         (map (PrimFloat.mul (2 * learning_rate / Np.float_of_nat (n_rows X)))
              (Ref.mat_vec (transpose X) r)))).
  { unfold step, Ref.gd_step. cbn [fst snd]. fold r. f_equal. f_equal.
    unfold Ref.mat_vec, transpose; cbn [rows]. now rewrite map_map. }
  unfold gd_epoch, bind, lift, get_self, set_intercept, set_coefficients,
    emit, with_self.
  rewrite (predict_2d X w b c Hs), dot_vec_aligned
    by (simpl; now rewrite Hc).
  rewrite mat_vec_c_ones. cbv beta iota.
  unfold Np.subtract. rewrite broadcast_same_length by exact Hpred.
  change (Np.zip_with PrimFloat.sub
            (map (fun r => Np.inner (1%float :: r) (b :: c)) (rows X)) y)
    with r.
  cbv beta iota. rewrite py_div_rows. cbv beta iota.
  rewrite dot_vec_aligned by (simpl; now rewrite Hr).
  cbv beta iota. rewrite Hs. cbn [intercept coefficients self].
  rewrite isub_same_length.
  2:{ unfold Ref.mat_vec. rewrite !length_map.
      unfold transpose; cbn [rows]. now rewrite columns_length. }
  cbv beta iota. cbn [self intercept coefficients draws drawn out].
  rewrite Hstep. cbn [fst snd]. unfold Ref.fitted, Ref.log_mse. cbn [fst snd].
  fold mse.
  destruct (epoch mod 10 =? 0)%Z eqn:E10; [|reflexivity].
  cbn [self draws drawn out].
  destruct (epoch =? 0)%Z eqn:E0.
  - reflexivity.
  - destruct Hth as [->|Hth]; [discriminate|].
    destruct (training_history loc) as [[es ms]|]; [reflexivity|contradiction].
Qed.

Lemma gd_params_shift p k : params (step p) k = params p (S k).
Proof.
  unfold params, Ref.gd_params. fold step. now rewrite Nat.iter_succ_r.
Qed.

Lemma zip_with_snoc {A B C} (f : A -> B -> C) u v a b :
  length u = length v ->
  Np.zip_with f (u ++ [a]) (v ++ [b]) = Np.zip_with f u v ++ [f a b].
Proof.
  revert v; induction u as [|x u IH]; intros [|z v] E; simpl in *;
    try discriminate; auto.
  f_equal. apply IH. lia.
Qed.

Lemma log_mse_paired epoch mse th :
  Ref.paired th -> Ref.paired (Ref.log_mse epoch mse th).
Proof.
  unfold Ref.log_mse. intros P.
  destruct (epoch mod 10 =? 0)%Z; auto.
  destruct (epoch =? 0)%Z; simpl; auto.
  destruct th as [[es ms]|]; simpl in *; auto.
  rewrite !length_app. simpl. lia.
Qed.

Lemma log_mse_bound a mse th :
  (a <> 0 -> th <> None) -> Ref.log_mse (Z.of_nat a) mse th <> None.
Proof.
  unfold Ref.log_mse. intros Hth.
  destruct (Z.of_nat a mod 10 =? 0)%Z eqn:E10.
  - destruct (Z.of_nat a =? 0)%Z eqn:E0; [discriminate|].
    apply Z.eqb_neq in E0.
    destruct th as [[es ms]|]; [discriminate|]. exfalso. apply Hth; [lia|auto].
  - apply Hth. intros ->. discriminate.
Qed.

Lemma log_mse_prints a mse th out0 o :
  (a = 0 -> th = None) -> (a <> 0 -> th <> None) -> Ref.paired th ->
  o = out0 ++ Ref.prints th ->
  (if (Z.of_nat a mod 10 =? 0)%Z then o ++ [print_mse (Z.of_nat a) mse] else o)
  = out0 ++ Ref.prints (Ref.log_mse (Z.of_nat a) mse th).
Proof.
  intros H0 H1 P ->. unfold Ref.log_mse.
  destruct (Z.of_nat a mod 10 =? 0)%Z eqn:E10; auto.
  destruct (Z.of_nat a =? 0)%Z eqn:E0.
  - apply Z.eqb_eq in E0. rewrite H0 by lia. simpl. now rewrite app_nil_r.
  - apply Z.eqb_neq in E0.
    destruct th as [[es ms]|]; [|exfalso; apply H1; [lia|auto]].
    simpl in *. rewrite zip_with_snoc by assumption. now rewrite app_assoc.
Qed.

Lemma snapshots_shift {A} (g : float * list float -> A) p n :
  map (fun k => g (params p (S k))) (seq 0 (S n))
  = g (step p) :: map (fun k => g (params (step p) (S k))) (seq 0 n).
Proof.
  cbn [seq map]. f_equal. rewrite <- seq_shift, map_map.
  apply map_ext. intros k. now rewrite gd_params_shift.
Qed.

(** The loop, from epoch [a] on: it never raises, every epoch is one
    [gd_step], and what it printed is what it logged. *)
Lemma gd_loop_run n : forall a loc w b c out0,
  self w = mk_regressor (Some c) (Some b) ->
  length c = n_cols X ->
  (a = 0 -> training_history loc = None) ->
  (a <> 0 -> training_history loc <> None) ->
  Ref.paired (training_history loc) ->
  out w = out0 ++ Ref.prints (training_history loc) ->
  exists th,
    for_each (map Z.of_nat (seq a n)) (gd_epoch X y learning_rate) loc w
    = (Ok (mk_locals
             (history_intercept loc
              ++ map (fun k => fst (params (b, c) (S k))) (seq 0 n))
             (history_coefficients loc
              ++ map (fun k => snd (params (b, c) (S k))) (seq 0 n))
             th),
       mk_world (Ref.fitted (params (b, c) n)) (draws w) (drawn w)
                (out0 ++ Ref.prints th))
    /\ Ref.paired th
    /\ (a + n <> 0 -> th <> None)
    /\ (n = 0 -> th = training_history loc).
Proof.
  induction n as [|n IH]; intros a loc w b c out0 Hs Hc H0 H1 HP Ho.
  - exists (training_history loc). simpl. unfold ret.
    destruct loc as [hi hc th], w as [s d k o]; simpl in *.
    rewrite !app_nil_r. subst. split; [|split; [|split]]; auto.
    intros Ha. apply H1. lia.
  - replace (map Z.of_nat (seq a (S n)))
      with (Z.of_nat a :: map Z.of_nat (seq (S a) n)) by reflexivity.
    cbn [for_each]. unfold bind.
    rewrite (gd_epoch_run (Z.of_nat a) loc w b c Hs Hc).
    2:{ destruct a; [left; reflexivity|right; apply H1; discriminate]. }
    set (mse := Np.mean (Np.square (Ref.residual X y (b, c)))).
    destruct (step (b, c)) as [b' c'] eqn:Es.
    assert (Hc' : length c' = n_cols X).
    { change c' with (snd (b', c')). rewrite <- Es.
      now apply gd_step_length. }
    cbn [fst snd].
    edestruct (IH (S a)
      (mk_locals (history_intercept loc ++ [b'])
                 (history_coefficients loc ++ [c'])
                 (Ref.log_mse (Z.of_nat a) mse (training_history loc)))
      (mk_world (Ref.fitted (b', c')) (draws w) (drawn w)
                (if (Z.of_nat a mod 10 =? 0)%Z
                 then out w ++ [print_mse (Z.of_nat a) mse] else out w))
      b' c' out0) as (th & Hrun & Hp & Hn & _).
    + reflexivity.
    + exact Hc'.
    + discriminate.
    + intros _. cbn [training_history]. now apply log_mse_bound.
    + cbn [training_history]. now apply log_mse_paired.
    + cbn [training_history out]. now apply log_mse_prints.
    + exists th. cbn [history_intercept history_coefficients draws drawn] in Hrun.
      rewrite Hrun. split; [|split; [|split]]; auto.
      * rewrite !(snapshots_shift _ (b, c)), Es, <- !app_assoc.
        rewrite <- (gd_params_shift (b, c)), Es. reflexivity.
      * intros _. apply Hn. lia.
      * discriminate.
Qed.

Lemma gd_start_length w n : length (snd (Ref.gd_start w n)) = n.
Proof. unfold Ref.gd_start; simpl. now rewrite !length_map, length_seq. Qed.

(** Initialisation and loop together. *)
Lemma gd_train_run iterations w :
  exists th,
    gd_train X y learning_rate iterations w
    = (Ok (mk_locals
             (map (fun k => fst (params (Ref.gd_start w (n_cols X)) (S k)))
                  (seq 0 (Z.to_nat iterations)))
             (map (fun k => snd (params (Ref.gd_start w (n_cols X)) (S k)))
                  (seq 0 (Z.to_nat iterations)))
             th),
       mk_world (Ref.fitted (params (Ref.gd_start w (n_cols X))
                                    (Z.to_nat iterations)))
                (draws w) (S (drawn w + n_cols X)) (out w ++ Ref.prints th))
    /\ Ref.paired th
    /\ (Z.to_nat iterations <> 0 -> th <> None)
    /\ (Z.to_nat iterations = 0 -> th = None).
Proof.
  unfold gd_train, py_range.
  unfold bind at 1. unfold random_rand_n at 1.
  unfold bind at 1. unfold set_coefficients at 1.
  unfold bind at 1. unfold random_rand at 1.
  unfold bind at 1. unfold set_intercept at 1.
  cbn [self draws drawn out with_self coefficients intercept].
  edestruct (gd_loop_run (Z.to_nat iterations) 0 (mk_locals [] [] None)
    (mk_world
       (mk_regressor
          (Some (map (fun u => u * 0.01)%float
                     (map (draws w) (seq (drawn w) (n_cols X)))))
          (Some (draws w (drawn w + n_cols X) * 0.01)%float))
       (draws w) (S (drawn w + n_cols X)) (out w))
    (draws w (drawn w + n_cols X) * 0.01)%float
    (map (fun u => u * 0.01)%float (map (draws w) (seq (drawn w) (n_cols X))))
    (out w)) as (th & Hrun & Hp & Hn & Hz).
  - reflexivity.
  - now rewrite !length_map, length_seq.
  - reflexivity.
  - intros E; now elim E.
  - exact I.
  - simpl. now rewrite app_nil_r.
  - exists th. split; [exact Hrun|]. split; [exact Hp|]. split.
    + intros E. apply Hn. simpl. exact E.
    + intros E. now rewrite (Hz E).
Qed.

Lemma snapshots_lengths p n :
  length (snd p) = n_cols X ->
  Forall (fun coef => length coef = n_cols X)
         (map (fun k => snd (params p (S k))) (seq 0 n)).
Proof.
  intros E. apply Forall_forall. intros coef Hin.
  apply in_map_iff in Hin as (k & <- & _). now apply gd_params_length.
Qed.

Lemma snapshots_last {A} (g : float * list float -> A) p n d :
  last (map (fun k => g (params p (S k))) (seq 0 (S n))) d = g (params p (S n)).
Proof. rewrite seq_S, map_app. cbn [map]. now rewrite last_last. Qed.

(** The whole call: it returns exactly when at least one epoch ran. *)
Lemma fit_gradient_descent_run iterations w :
  exists th,
    Ref.paired th /\
    (Z.to_nat iterations = 0 -> th = None) /\
    gd_train X y learning_rate iterations w
    = (Ok (mk_locals
             (map (fun k => fst (params (Ref.gd_start w (n_cols X)) (S k)))
                  (seq 0 (Z.to_nat iterations)))
             (map (fun k => snd (params (Ref.gd_start w (n_cols X)) (S k)))
                  (seq 0 (Z.to_nat iterations)))
             th),
       mk_world (Ref.fitted (params (Ref.gd_start w (n_cols X))
                                    (Z.to_nat iterations)))
                (draws w) (S (drawn w + n_cols X)) (out w ++ Ref.prints th)) /\
    fit_gradient_descent X y learning_rate iterations w
    = match th with
      | Some (es, ms) =>
          (Ok tt,
           mk_world (Ref.fitted (params (Ref.gd_start w (n_cols X))
                                        (Z.to_nat iterations)))
             (draws w) (S (drawn w + n_cols X))
             ((out w ++ Ref.prints th)
              ++ Ref.plots es ms
                   (map (fun k => fst (params (Ref.gd_start w (n_cols X)) (S k)))
                        (seq 0 (Z.to_nat iterations)))
                   (map (fun k => snd (params (Ref.gd_start w (n_cols X)) (S k)))
                        (seq 0 (Z.to_nat iterations)))
                   (n_cols X)))
      | None =>
          (Raise (UnboundLocalError "training_history"),
           mk_world (Ref.fitted (params (Ref.gd_start w (n_cols X))
                                        (Z.to_nat iterations)))
             (draws w) (S (drawn w + n_cols X))
             ((out w ++ Ref.prints th) ++ [plt_figure]))
      end /\
    (Z.to_nat iterations <> 0 -> th <> None).
Proof.
  destruct (gd_train_run iterations w) as (th & Hrun & Hp & Hn & Hz).
  exists th. split; [exact Hp|]. split; [exact Hz|]. split; [exact Hrun|].
  split; [|exact Hn].
  unfold fit_gradient_descent, bind. rewrite Hrun.
  destruct th as [[es ms]|].
  - destruct (Z.to_nat iterations) as [|n] eqn:EN.
    + now specialize (Hz eq_refl).
    + rewrite (gd_plots_run _ _ es ms
                 (snd (step (Ref.gd_start w (n_cols X))))
                 (map (fun k => snd (params (step (Ref.gd_start w (n_cols X)))
                                            (S k))) (seq 0 n))).
      * cbn [self draws drawn out history_intercept history_coefficients].
        rewrite gd_step_length by apply gd_start_length. reflexivity.
      * reflexivity.
      * cbn [history_coefficients]. rewrite snapshots_shift. reflexivity.
      * cbn [history_coefficients].
        eapply Forall_impl; [|apply snapshots_lengths, gd_start_length].
        cbv beta. intros coef ->. symmetry.
        apply gd_step_length, gd_start_length.
  - now rewrite gd_plots_unbound.
Qed.

(** C2. On a matrix [X] of [N >= 1] rows with one target per row,
    [fit_gradient_descent] runs exactly [iterations] epochs, never fewer:
    it records one snapshot per epoch, the [k]-th being the parameters after
    [k + 1] steps, and leaves the parameters after [iterations] steps in the
    model.  A step takes the residual [r = predictions - y] and subtracts
    [(2 * learning_rate / N) * sum r] from the intercept and
    [(2 * learning_rate / N) * (X^T . r)] from the coefficients, with no
    further factor. *)
Theorem gd_runs_iterations_epochs (iterations : Z) (w : world) :
  (exists th w1,
     gd_train X y learning_rate iterations w
     = (Ok (mk_locals
              (map (fun k => fst (Ref.gd_params X y learning_rate
                                    (Ref.gd_start w (n_cols X)) (S k)))
                   (seq 0 (Z.to_nat iterations)))
              (map (fun k => snd (Ref.gd_params X y learning_rate
                                    (Ref.gd_start w (n_cols X)) (S k)))
                   (seq 0 (Z.to_nat iterations)))
              th), w1)) /\
  self (snd (fit_gradient_descent X y learning_rate iterations w))
  = Ref.fitted (Ref.gd_params X y learning_rate (Ref.gd_start w (n_cols X))
                  (Z.to_nat iterations)) /\
  (forall p k,
     Ref.gd_params X y learning_rate p (S k)
     = Ref.gd_step X y learning_rate (Ref.gd_params X y learning_rate p k)) /\
  (forall b c,
     let r := Np.zip_with PrimFloat.sub
                (map (fun row => Np.inner (1%float :: row) (b :: c)) (rows X))
                y in
     let g := (2 * learning_rate / Np.float_of_nat (n_rows X))%float in
     Ref.gd_step X y learning_rate (b, c)
     = ((b - g * Np.sum r)%float,
        Np.zip_with PrimFloat.sub c
          (map (fun x_j => g * Np.inner x_j r)%float (columns X)))).
Proof.
  destruct (fit_gradient_descent_run iterations w)
    as (th & _ & _ & Htrain & Hfit & _).
  split; [|split; [|split]].
  - eauto.
  - rewrite Hfit. now destruct th as [[es ms]|].
  - reflexivity.
  - reflexivity.
Qed.

(** C4, as the code has it.  A gradient-descent fit that runs at least one
    epoch returns [None]; the model keeps the last snapshot of the parameter
    trace and nothing else; the MSE trace and the parameter trace (intercepts
    and, per coefficient, its values) are locals that reach the outside as
    printed lines and as the data of the plots only. *)
Theorem gd_traces_only_shown (iterations : Z) (w : world) :
  (1 <= iterations)%Z ->
  exists es ms,
    let hi := map (fun k => fst (Ref.gd_params X y learning_rate
                                   (Ref.gd_start w (n_cols X)) (S k)))
                  (seq 0 (Z.to_nat iterations)) in
    let hc := map (fun k => snd (Ref.gd_params X y learning_rate
                                   (Ref.gd_start w (n_cols X)) (S k)))
                  (seq 0 (Z.to_nat iterations)) in
    fst (gd_train X y learning_rate iterations w)
    = Ok (mk_locals hi hc (Some (es, ms))) /\
    fit_gradient_descent X y learning_rate iterations w
    = (Ok tt,
       mk_world (mk_regressor (Some (last hc [])) (Some (last hi 0%float)))
                (draws w) (S (drawn w + n_cols X))
                ((out w ++ Np.zip_with print_mse es ms)
                 ++ Ref.plots es ms hi hc (n_cols X))).
Proof.
  intros Hit.
  destruct (fit_gradient_descent_run iterations w)
    as (th & _ & _ & Htrain & Hfit & Hn).
  destruct th as [[es ms]|]; [|exfalso; apply Hn; [lia|reflexivity]].
  exists es, ms. cbv zeta. rewrite Htrain, Hfit. split; [reflexivity|].
  destruct (Z.to_nat iterations) as [|n] eqn:EN; [lia|].
  fold params. now rewrite !snapshots_last.
Qed.

End GradientDescent.

(** Three epochs on [y = 2 + 3 x], from draws that are all [0.5]. *)
Lemma gd_runs_iterations_epochs_example :
  self (snd (fit_gradient_descent (mk_matrix 1 [[1]; [2]; [3]]%float)
               [5; 8; 11]%float 0.1%float 3
               (mk_world init (fun _ => 0.5%float) 0 [])))
  = Ref.fitted (Ref.gd_params (mk_matrix 1 [[1]; [2]; [3]]%float)
                  [5; 8; 11]%float 0.1%float
                  (Ref.gd_start (mk_world init (fun _ => 0.5%float) 0 []) 1) 3).
Proof.
  exact (proj1 (proj2
    (gd_runs_iterations_epochs (mk_matrix 1 [[1]; [2]; [3]]%float)
       [5; 8; 11]%float 0.1%float eq_refl (fun E => O_S _ (eq_sym E)) 3
       (mk_world init (fun _ => 0.5%float) 0 [])))).
Defined.

Lemma gd_traces_only_shown_example :
  exists es ms,
    fst (gd_train (mk_matrix 1 [[1]; [2]; [3]]%float) [5; 8; 11]%float
           0.1%float 3 (mk_world init (fun _ => 0.5%float) 0 []))
    = Ok (mk_locals
            (map (fun k => fst (Ref.gd_params (mk_matrix 1 [[1]; [2]; [3]]%float)
                    [5; 8; 11]%float 0.1%float
                    (Ref.gd_start (mk_world init (fun _ => 0.5%float) 0 []) 1)
                    (S k))) (seq 0 3))
            (map (fun k => snd (Ref.gd_params (mk_matrix 1 [[1]; [2]; [3]]%float)
                    [5; 8; 11]%float 0.1%float
                    (Ref.gd_start (mk_world init (fun _ => 0.5%float) 0 []) 1)
                    (S k))) (seq 0 3))
            (Some (es, ms))).
Proof.
  destruct (gd_traces_only_shown (mk_matrix 1 [[1]; [2]; [3]]%float)
              [5; 8; 11]%float 0.1%float eq_refl (fun E => O_S _ (eq_sym E)) 3
              (mk_world init (fun _ => 0.5%float) 0 []))
    as (es & ms & H1 & _).
  - discriminate.
  - exists es, ms. exact H1.
Defined.

(** C4 as stated fails: the call returns [None] and the object has only the
    two parameter fields, so runs that agree on those cannot be told apart
    by the caller, whatever their traces were.  With a learning rate of
    zero, two targets give one model and two MSE traces, and one or two
    epochs give one model and parameter traces of one or two entries. *)
Lemma gd_traces_not_retrievable :
  fst (fit_gradient_descent (mk_matrix 1 [[1%float]]) [0%float] 0%float 1
         (mk_world init (fun _ => 0.5%float) 0 [])) = Ok tt /\
  fst (fit_gradient_descent (mk_matrix 1 [[1%float]]) [1%float] 0%float 1
         (mk_world init (fun _ => 0.5%float) 0 [])) = Ok tt /\
  fst (fit_gradient_descent (mk_matrix 1 [[1%float]]) [0%float] 0%float 2
         (mk_world init (fun _ => 0.5%float) 0 [])) = Ok tt /\
  self (snd (fit_gradient_descent (mk_matrix 1 [[1%float]]) [0%float] 0%float 1
               (mk_world init (fun _ => 0.5%float) 0 [])))
  = self (snd (fit_gradient_descent (mk_matrix 1 [[1%float]]) [1%float] 0%float 1
                 (mk_world init (fun _ => 0.5%float) 0 []))) /\
  self (snd (fit_gradient_descent (mk_matrix 1 [[1%float]]) [0%float] 0%float 1
               (mk_world init (fun _ => 0.5%float) 0 [])))
  = self (snd (fit_gradient_descent (mk_matrix 1 [[1%float]]) [0%float] 0%float 2
                 (mk_world init (fun _ => 0.5%float) 0 []))) /\
  fst (gd_train (mk_matrix 1 [[1%float]]) [0%float] 0%float 1
         (mk_world init (fun _ => 0.5%float) 0 []))
  = Ok (mk_locals [0.005%float] [[0.005%float]]
          (Some ([0%Z], [0.0001%float]))) /\
  fst (gd_train (mk_matrix 1 [[1%float]]) [1%float] 0%float 1
         (mk_world init (fun _ => 0.5%float) 0 []))
  = Ok (mk_locals [0.005%float] [[0.005%float]]
          (Some ([0%Z], [0.9801%float]))) /\
  fst (gd_train (mk_matrix 1 [[1%float]]) [0%float] 0%float 2
         (mk_world init (fun _ => 0.5%float) 0 []))
  = Ok (mk_locals [0.005%float; 0.005%float] [[0.005%float]; [0.005%float]]
          (Some ([0%Z], [0.0001%float]))) /\
  ~ traces_retrievable.
Proof.
  repeat (split; [vm_compute; reflexivity|]).
  intros (retrieve & Hr).
  pose proof (Hr (mk_matrix 1 [[1%float]]) [0%float] 0%float 1%Z
                (mk_world init (fun _ => 0.5%float) 0 []) _
                eq_refl eq_refl) as H0.
  pose proof (Hr (mk_matrix 1 [[1%float]]) [1%float] 0%float 1%Z
                (mk_world init (fun _ => 0.5%float) 0 []) _
                eq_refl eq_refl) as H1.
  vm_compute in H0, H1. rewrite H0 in H1.
  apply (f_equal (fun loc => match training_history loc with
                            | Some (_, [m]) => PrimFloat.eqb m 0.0001%float
                            | _ => false
                            end)) in H1.
  vm_compute in H1. discriminate.
Qed.

(* ================================================================= *)
(** ** Shapes that do not agree *)

Lemma predict_2d_mismatch X w b c :
  self w = mk_regressor (Some c) (Some b) ->
  n_cols X <> length c ->
  predict (Arr2 X) w = (Raise (ValueError shapes_not_aligned), w).
Proof.
  intros Hs Hn. rewrite (predict_2d X w b c Hs), dot_vec_misaligned.
  - reflexivity.
  - simpl. lia.
Qed.

(** An epoch on targets that neither match the rows nor are a single value:
    the subtraction does not broadcast, or, on a one-row [X], the product
    with [X.T] is not aligned. *)
Lemma gd_epoch_mismatch X y lr epoch loc w b c :
  self w = mk_regressor (Some c) (Some b) ->
  length c = n_cols X ->
  length y <> n_rows X ->
  length y <> 1 ->
  exists e,
    gd_epoch X y lr epoch loc w = (Raise (ValueError e), w) /\
    (e = operands_not_broadcast \/ e = shapes_not_aligned).
Proof.
  intros Hs Hc Hy Hy1.
  unfold gd_epoch, bind, lift.
  rewrite (predict_2d X w b c Hs), dot_vec_aligned by (simpl; now rewrite Hc).
  rewrite mat_vec_c_ones. cbv beta iota.
  assert (Hp : length (map (fun r => Np.inner (1%float :: r) (b :: c)) (rows X))
               = n_rows X) by apply length_map.
  set (preds := map (fun r => Np.inner (1%float :: r) (b :: c)) (rows X)) in *.
  unfold Np.subtract, Np.broadcast.
  destruct (length preds =? length y)%nat eqn:E.
  { apply Nat.eqb_eq in E. congruence. }
  destruct preds as [|a [|a' ps]].
  - destruct y as [|b0 [|b1 ys]]; simpl in *; try congruence; eauto.
  - simpl in Hp. rewrite <- Hp. cbn [Np.py_div].
    rewrite dot_vec_misaligned.
    + eauto.
    + unfold transpose; cbn [n_cols]. rewrite length_map. congruence.
  - destruct y as [|b0 [|b1 ys]]; simpl in *; try congruence; eauto.
Qed.

Lemma gd_train_mismatch X y lr iterations w :
  (1 <= iterations)%Z ->
  length y <> n_rows X ->
  length y <> 1 ->
  exists e,
    gd_train X y lr iterations w
    = (Raise (ValueError e),
       mk_world (Ref.fitted (Ref.gd_start w (n_cols X))) (draws w)
                (S (drawn w + n_cols X)) (out w)) /\
    (e = operands_not_broadcast \/ e = shapes_not_aligned).
Proof.
  intros Hit Hy Hy1.
  unfold gd_train, py_range.
  destruct (Z.to_nat iterations) as [|n] eqn:EN; [lia|].
  cbn [seq map for_each].
  unfold bind at 1. unfold random_rand_n at 1.
  unfold bind at 1. unfold set_coefficients at 1.
  unfold bind at 1. unfold random_rand at 1.
  unfold bind at 1. unfold set_intercept at 1.
  unfold with_self. cbn [self draws drawn out coefficients intercept].
  unfold bind at 1.
  destruct (gd_epoch_mismatch X y lr (Z.of_nat 0) (mk_locals [] [] None)
    (mk_world
       (mk_regressor
          (Some (map (fun u => u * 0.01)%float
                     (map (draws w) (seq (drawn w) (n_cols X)))))
          (Some (draws w (drawn w + n_cols X) * 0.01)%float))
       (draws w) (S (drawn w + n_cols X)) (out w))
    (draws w (drawn w + n_cols X) * 0.01)%float
    (map (fun u => u * 0.01)%float (map (draws w) (seq (drawn w) (n_cols X)))))
    as (e & He & Hcase); [reflexivity| |exact Hy|exact Hy1|].
  - now rewrite !length_map, length_seq.
  - rewrite He. exists e. split; [reflexivity|exact Hcase].
Qed.

Lemma fit_gradient_descent_mismatch X y lr iterations w :
  (1 <= iterations)%Z ->
  length y <> n_rows X ->
  length y <> 1 ->
  exists e,
    fit_gradient_descent X y lr iterations w
    = (Raise (ValueError e),
       mk_world (Ref.fitted (Ref.gd_start w (n_cols X))) (draws w)
                (S (drawn w + n_cols X)) (out w)) /\
    (e = operands_not_broadcast \/ e = shapes_not_aligned).
Proof.
  intros Hit Hy Hy1.
  destruct (gd_train_mismatch X y lr iterations w Hit Hy Hy1)
    as (e & He & Hcase).
  exists e. split; [|exact Hcase].
  unfold fit_gradient_descent, bind. now rewrite He.
Qed.

(** A one-entry [y] is stretched to the length of the predictions. *)
Lemma subtract_stretch (p : list float) (y0 : float) :
  Np.subtract p [y0] = Np.subtract p (repeat y0 (length p)).
Proof.
  unfold Np.subtract.
  rewrite (broadcast_same_length _ p (repeat y0 (length p)))
    by (now rewrite repeat_length).
  assert (Hzip : Np.zip_with PrimFloat.sub p (repeat y0 (length p))
                 = map (fun x => x - y0)%float p).
  { induction p as [|a p IH]; simpl; congruence. }
  rewrite Hzip. unfold Np.broadcast.
  destruct p as [|a [|a' p']]; reflexivity.
Qed.

Lemma predict_2d_length X w p w' :
  predict (Arr2 X) w = (Ok p, w') -> length p = n_rows X.
Proof.
  unfold predict, bind, get_self, lift, raise, Mat.dot_vec.
  destruct (coefficients (self w)) as [c|]; [|discriminate].
  destruct (intercept (self w)) as [b|]; [|discriminate].
  destruct (n_cols (Mat.c_ones X) =? length (b :: c))%nat; [|discriminate].
  intros [= <- _]. unfold Mat.c_ones, n_rows; cbn [rows].
  now rewrite !length_map.
Qed.

Lemma bind_congr {A B} (c : M A) (k k' : A -> M B) (w : world) :
  (forall a w', c w = (Ok a, w') -> k a w' = k' a w') ->
  bind c k w = bind c k' w.
Proof.
  intros Hk. unfold bind.
  destruct (c w) as [[a|e] w']; [now apply Hk|reflexivity].
Qed.

Lemma gd_epoch_single_target X y0 lr epoch loc w :
  gd_epoch X [y0] lr epoch loc w
  = gd_epoch X (repeat y0 (n_rows X)) lr epoch loc w.
Proof.
  unfold gd_epoch. apply bind_congr. intros p w1 Ep.
  rewrite <- (predict_2d_length X w p w1 Ep), <- subtract_stretch.
  reflexivity.
Qed.

Lemma for_each_ext {A S} (l : list A) (f g : A -> S -> M S) :
  (forall a s w, f a s w = g a s w) ->
  forall s w, for_each l f s w = for_each l g s w.
Proof.
  intros Hfg. induction l as [|a l IH]; intros s w; [reflexivity|].
  cbn [for_each]. unfold bind. rewrite Hfg.
  destruct (g a s w) as [[s'|e] w']; [apply IH|reflexivity].
Qed.

(** A gradient-descent fit on a one-entry [y] is the fit on the vector that
    repeats the entry once for each row of [X]. *)
Lemma fit_gradient_descent_single_target X y0 lr iterations w :
  fit_gradient_descent X [y0] lr iterations w
  = fit_gradient_descent X (repeat y0 (n_rows X)) lr iterations w.
Proof.
  assert (Ht : forall w0, gd_train X [y0] lr iterations w0
                          = gd_train X (repeat y0 (n_rows X)) lr iterations w0).
  { intros w0. unfold gd_train, bind.
    destruct (random_rand_n (n_cols X) w0) as [[c|e] w1]; [|reflexivity].
    destruct (set_coefficients _ w1) as [[u|e] w2]; [|reflexivity].
    destruct (random_rand w2) as [[b|e] w3]; [|reflexivity].
    destruct (set_intercept _ w3) as [[u'|e] w4]; [|reflexivity].
    apply for_each_ext. intros. apply gd_epoch_single_target. }
  unfold fit_gradient_descent, bind. now rewrite Ht.
Qed.

(** [predict] on a 1-D [X] reads [coefficients[0]] and nothing else of the
    coefficients. *)
Lemma predict_1d v w b c :
  self w = mk_regressor (Some c) (Some b) ->
  predict (Arr1 v) w
  = match c with
    | c0 :: _ => (Ok (map (fun x => b + c0 * x)%float v), w)
    | [] => (Raise IndexError, w)
    end.
Proof.
  intros Hs. unfold predict, bind, get_self, lift, ret. rewrite Hs.
  cbn [coefficients intercept]. destruct c; reflexivity.
Qed.

Section ShapeMismatch.

Variable pinv : matrix float -> result (matrix float).

Hypothesis pinv_shape : forall A P,
  pinv A = Ok P -> n_cols P = n_rows A /\ n_rows P = n_cols A.

Lemma fit_multiple_mismatch X y w :
  length y <> n_rows X ->
  fit_multiple pinv X y w
  = match pinv (Ref.gram X) with
    | Ok _ => (Raise (ValueError shapes_not_aligned), w)
    | Raise e => (Raise e, w)
    end.
Proof.
  intros Hy. unfold fit_multiple, bind, lift.
  rewrite dot_aligned by reflexivity. fold (Ref.gram X). cbn [rbind].
  destruct (pinv (Ref.gram X)) as [P|e] eqn:EP; [|reflexivity].
  destruct (pinv_shape _ _ EP) as [HPc _].
  destruct (gram_shape X) as [HGr _].
  cbn [rbind]. rewrite dot_aligned.
  2:{ rewrite HPc, HGr. unfold n_rows, transpose; cbn [rows].
      now rewrite columns_length. }
  cbn [rbind]. rewrite dot_vec_misaligned; [reflexivity|].
  unfold Ref.mat_mul, transpose, Mat.c_ones; cbn [n_cols rows].
  unfold n_rows at 1. cbn [rows]. rewrite length_map.
  intros E. apply Hy. symmetry. exact E.
Qed.

(** C3, as the code has it.  Neither [fit] nor [predict] validates shapes;
    what fails is the NumPy operation that meets the mismatch.  When [y]
    does not have one entry per row of [X]: a least-squares [fit] raises the
    shape error of the last product (unless the pseudo-inverse raised
    first) and leaves the model alone; a gradient-descent [fit] of at least
    one epoch raises a shape error in its first epoch provided [y] is not a
    single value.  A one-entry [y] is broadcast: the gradient-descent fit
    is the one on the vector that repeats the entry once per row, and it
    returns when [X] has a row and at least one epoch is run.  [predict] on
    a 2-D [X] whose column count is not the number of coefficients raises
    the shape error of its product.  [predict] on a 1-D [X] reads
    [coefficients[0]] only: with one coefficient or more it returns
    [intercept + coefficients[0] * X] and changes nothing, and with no
    coefficient at all it raises [IndexError]. *)
Theorem shape_mismatch_raises (X : ndarray) (y : list float) (lr : float)
    (iterations : Z) (w : world) :
  (length y <> n_rows (as_2d X) ->
   fit pinv X y "least_squares" lr iterations w
   = match pinv (Ref.gram (as_2d X)) with
     | Ok _ => (Raise (ValueError shapes_not_aligned), w)
     | Raise e => (Raise e, w)
     end /\
   ((1 <= iterations)%Z -> length y <> 1 ->
    exists e,
      fst (fit pinv X y "gradient_descent" lr iterations w)
      = Raise (ValueError e) /\
      (e = operands_not_broadcast \/ e = shapes_not_aligned))) /\
  (forall y0, y = [y0] ->
     fit pinv X y "gradient_descent" lr iterations w
     = fit pinv X (repeat y0 (n_rows (as_2d X))) "gradient_descent"
           lr iterations w /\
     ((1 <= iterations)%Z -> n_rows (as_2d X) <> 0 ->
      fst (fit pinv X y "gradient_descent" lr iterations w) = Ok tt)) /\
  (forall b c M,
     self w = mk_regressor (Some c) (Some b) ->
     n_cols M <> length c ->
     predict (Arr2 M) w = (Raise (ValueError shapes_not_aligned), w)) /\
  (forall b c v,
     self w = mk_regressor (Some c) (Some b) ->
     predict (Arr1 v) w
     = match c with
       | c0 :: _ => (Ok (map (fun x => b + c0 * x)%float v), w)
       | [] => (Raise IndexError, w)
       end).
Proof.
  split; [|split; [|split]].
  - intros Hy. split.
    + change (fit pinv X y "least_squares" lr iterations w)
        with (fit_multiple pinv (as_2d X) y w).
      now apply fit_multiple_mismatch.
    + intros Hit Hy1.
      change (fit pinv X y "gradient_descent" lr iterations w)
        with (fit_gradient_descent (as_2d X) y lr iterations w).
      destruct (fit_gradient_descent_mismatch (as_2d X) y lr iterations w
                  Hit Hy Hy1) as (e & He & Hcase).
      exists e. now rewrite He.
  - intros y0 ->.
    change (fit pinv X [y0] "gradient_descent" lr iterations w)
      with (fit_gradient_descent (as_2d X) [y0] lr iterations w).
    change (fit pinv X (repeat y0 (n_rows (as_2d X))) "gradient_descent"
                lr iterations w)
      with (fit_gradient_descent (as_2d X) (repeat y0 (n_rows (as_2d X)))
              lr iterations w).
    split; [apply fit_gradient_descent_single_target|].
    intros Hit Hrows. rewrite fit_gradient_descent_single_target.
    destruct (fit_gradient_descent_run (as_2d X)
                (repeat y0 (n_rows (as_2d X))) lr
                (repeat_length y0 (n_rows (as_2d X))) Hrows iterations w)
      as (th & _ & _ & _ & Hfit & Hsome).
    rewrite Hfit. destruct th as [[es ms]|]; [reflexivity|].
    exfalso. apply Hsome; [lia|reflexivity].
  - intros b c M Hs Hn. now apply predict_2d_mismatch with (b := b) (c := c).
  - intros b c v Hs. now apply predict_1d.
Qed.

End ShapeMismatch.

Lemma shape_mismatch_raises_example :
  fit pinv_diag (Arr2 (mk_matrix 1 [[0%float]])) [3; 4]%float "least_squares"
      default_learning_rate default_iterations
      (mk_world init (fun _ => 0.5%float) 0 [])
  = (Raise (ValueError shapes_not_aligned),
     mk_world init (fun _ => 0.5%float) 0 []) /\
  fst (fit pinv_diag (Arr2 (mk_matrix 1 [[1]; [2]]%float)) [5%float]
         "gradient_descent" 0.1%float 1
         (mk_world init (fun _ => 0.5%float) 0 []))
  = Ok tt /\
  predict (Arr1 [1; 2]%float)
    (mk_world (mk_regressor (Some []) (Some 3%float)) (fun _ => 0.5%float) 0 [])
  = (Raise IndexError,
     mk_world (mk_regressor (Some []) (Some 3%float)) (fun _ => 0.5%float) 0 []).
Proof.
  split; [|split].
  - exact (proj1 (proj1 (shape_mismatch_raises pinv_diag pinv_diag_shape
             (Arr2 (mk_matrix 1 [[0%float]])) [3; 4]%float
             default_learning_rate default_iterations
             (mk_world init (fun _ => 0.5%float) 0 []))
             (fun E => O_S _ (eq_add_S _ _ (eq_sym E))))).
  - apply (proj1 (proj2 (shape_mismatch_raises pinv_diag pinv_diag_shape
             (Arr2 (mk_matrix 1 [[1]; [2]]%float)) [5%float] 0.1%float 1
             (mk_world init (fun _ => 0.5%float) 0 []))) 5%float eq_refl).
    + discriminate.
    + discriminate.
  - exact (proj2 (proj2 (proj2 (shape_mismatch_raises pinv_diag pinv_diag_shape
             (Arr1 []) [] 0.1%float 1
             (mk_world (mk_regressor (Some []) (Some 3%float))
                       (fun _ => 0.5%float) 0 []))))
             3%float [] [1; 2]%float eq_refl).
Defined.

(** C3 as stated fails twice.  A gradient-descent [fit] on a two-row [X]
    and a one-entry [y] broadcasts the target and returns; [predict] on a
    1-D input, one feature, with a model of two coefficients returns
    [intercept + coefficients[0] * x]. *)
Lemma shape_mismatch_accepted :
  length [5%float] <> n_rows (mk_matrix 1 [[1]; [2]]%float) /\
  fst (fit pinv_diag (Arr2 (mk_matrix 1 [[1]; [2]]%float)) [5%float]
         "gradient_descent" 0.1%float 1
         (mk_world init (fun _ => 0.5%float) 0 []))
  = Ok tt /\
  predict (Arr1 [1; 2]%float)
    (mk_world (mk_regressor (Some [1; 2]%float) (Some 3%float))
              (fun _ => 0.5%float) 0 [])
  = (Ok [4; 5]%float,
     mk_world (mk_regressor (Some [1; 2]%float) (Some 3%float))
              (fun _ => 0.5%float) 0 []).
Proof.
  split; [discriminate|]. split; vm_compute; reflexivity.
Qed.

(* ================================================================= *)
(** ** binary64 facts

    Proved from the specification of the primitive operations
    ([Prim2SF] and the [SF64] functions). *)

Section Binary64.

Local Open Scope float_scope.

Lemma digits2_size p : digits2_pos p = Pos.size p.
Proof. induction p; simpl; congruence. Qed.

Lemma digits2_bound p : (2 ^ (Zpos (digits2_pos p) - 1) <= Zpos p)%Z.
Proof.
  rewrite digits2_size.
  pose proof (Pos.size_le p) as H.
  assert (E : (2 ^ Zpos (Pos.size p) <= 2 * Zpos p)%Z).
  { change (2 * Zpos p)%Z with (Zpos p~0). rewrite <- Pos2Z.inj_pow. exact H. }
  replace (Zpos (Pos.size p)) with (Z.succ (Zpos (Pos.size p) - 1))%Z in E by lia.
  rewrite Z.pow_succ_r in E by lia. lia.
Qed.

Lemma shr_1_m mrs : (0 <= shr_m mrs)%Z -> shr_m (shr_1 mrs) = Z.div2 (shr_m mrs).
Proof.
  destruct mrs as [m r s]; simpl. destruct m as [|[p|p|]|p]; simpl; try reflexivity; lia.
Qed.

Lemma shr_iter_m p : forall mrs, (0 <= shr_m mrs)%Z ->
  shr_m (iter_pos shr_1 p mrs) = (shr_m mrs / 2 ^ Zpos p)%Z.
Proof.
  assert (H1 : forall mrs, (0 <= shr_m mrs)%Z -> (0 <= shr_m (shr_1 mrs))%Z).
  { intros mrs H. rewrite shr_1_m by auto. rewrite Z.div2_div. apply Z.div_pos; lia. }
  assert (Hpow : forall q, (0 < 2 ^ Zpos q)%Z).
  { intros q. apply Z.pow_pos_nonneg; lia. }
  induction p as [p IH|p IH|]; intros mrs H; cbn [iter_pos];
    try pose proof (Hpow p) as Hp.
  - assert (E : (2 ^ Zpos p~1 = 2 * 2 ^ Zpos p * 2 ^ Zpos p)%Z).
    { replace (Zpos p~1) with (1 + Zpos p + Zpos p)%Z
        by (rewrite (Pos2Z.inj_xI p); lia).
      rewrite !Z.pow_add_r by lia. now rewrite Z.pow_1_r. }
    rewrite IH.
    2:{ rewrite IH by auto. apply Z.div_pos; auto. }
    rewrite IH by auto. rewrite shr_1_m by auto.
    rewrite Z.div2_div, !Z.div_div, E by lia. now rewrite Z.mul_assoc.
  - assert (E : (2 ^ Zpos p~0 = 2 ^ Zpos p * 2 ^ Zpos p)%Z).
    { replace (Zpos p~0) with (Zpos p + Zpos p)%Z
        by (rewrite (Pos2Z.inj_xO p); lia).
      now rewrite Z.pow_add_r by lia. }
    rewrite IH.
    2:{ rewrite IH by auto. apply Z.div_pos; auto. }
    rewrite IH by auto.
    rewrite !Z.div_div, E by lia. reflexivity.
  - rewrite shr_1_m by auto. now rewrite Z.div2_div.
Qed.


Lemma shr_fexp_pos m e l :
  (0 < m)%Z -> (SpecFloat.emin prec emax <= e)%Z ->
  (0 < shr_m (fst (shr_fexp prec emax m e l)))%Z /\
  (SpecFloat.emin prec emax <= snd (shr_fexp prec emax m e l))%Z.
Proof.
  intros Hm He. unfold shr_fexp, shr.
  assert (Hrec : shr_m (shr_record_of_loc m l) = m).
  { destruct l as [|[| |]]; reflexivity. }
  destruct m as [|q|q]; try lia. cbn [Zdigits2].
  pose proof (digits2_bound q) as Hd.
  set (d := Zpos (digits2_pos q)) in *.
  assert (Hd1 : (1 <= d)%Z) by (unfold d; lia).
  unfold fexp.
  destruct (Z.max (d + e - prec) (SpecFloat.emin prec emax) - e)%Z
    as [|n|n] eqn:En; cbn [fst snd].
  - rewrite Hrec. split; lia.
  - rewrite shr_iter_m by (rewrite Hrec; lia). rewrite Hrec. split; [|lia].
    assert (Hn : (Zpos n <= d - 1)%Z) by (unfold prec in *; lia).
    apply Z.div_str_pos. split.
    + apply Z.pow_pos_nonneg; lia.
    + etransitivity; [|exact Hd]. apply Z.pow_le_mono_r; lia.
  - rewrite Hrec. split; lia.
Qed.

Lemma round_nearest_even_pos m l : (0 < m)%Z -> (0 < round_nearest_even m l)%Z.
Proof.
  intros H. destruct l as [|[| |]]; simpl; try lia. destruct (Z.even m); lia.
Qed.

Lemma binary_round_aux_pos m e l :
  (0 < m)%Z -> (SpecFloat.emin prec emax <= e)%Z ->
  SFltb (S754_zero false) (binary_round_aux prec emax false m e l) = true.
Proof.
  intros Hm He. unfold binary_round_aux.
  destruct (shr_fexp_pos m e l Hm He) as [H1 H2].
  destruct (shr_fexp prec emax m e l) as [mrs' e']. cbn [fst snd] in *.
  pose proof (round_nearest_even_pos _ (loc_of_shr_record mrs') H1) as H3.
  destruct (shr_fexp_pos _ e' loc_Exact H3 H2) as [H4 _].
  destruct (shr_fexp prec emax _ e' loc_Exact) as [mrs'' e'']. cbn [fst snd] in *.
  destruct (shr_m mrs'') as [|q|q]; try lia.
  destruct (e'' <=? emax - prec)%Z; reflexivity.
Qed.

Lemma binary_normalize_pos p :
  SFltb (S754_zero false) (binary_normalize prec emax (Zpos p) 0 false) = true.
Proof.
  cbn [binary_normalize]. unfold binary_round, shl_align.
  set (e' := fexp prec emax (Zpos (digits2_pos p) + 0)).
  assert (He' : (SpecFloat.emin prec emax <= e')%Z)
    by (unfold e', fexp; lia).
  destruct (e' - 0)%Z; apply binary_round_aux_pos; try lia;
    unfold SpecFloat.emin, emax, prec; lia.
Qed.

Lemma of_uint63_pos i : (0 < Uint63.to_Z i)%Z -> (0 <? of_uint63 i) = true.
Proof.
  intros H. rewrite ltb_spec, of_uint63_spec.
  destruct (Uint63.to_Z i) as [|p|p]; try lia.
  apply binary_normalize_pos.
Qed.

(** [float(n)] is positive for a count [n >= 1]; counts are [Py_ssize_t],
    below [2^63]. *)
Lemma float_of_nat_pos n :
  0 < n -> (Z.of_nat n < 2 ^ 63)%Z -> (0 <? Np.float_of_nat n) = true.
Proof.
  intros Hn Hb. unfold Np.float_of_nat. apply of_uint63_pos.
  rewrite Uint63.of_Z_spec. change Uint63.wB with (2 ^ 63)%Z.
  rewrite Z.mod_small; lia.
Qed.

Lemma sub_self_finite x : is_finite x = true -> x - x = 0.
Proof.
  intros H. apply Prim2SF_inj. rewrite sub_spec.
  unfold is_finite, is_nan, is_infinity in H.
  rewrite !eqb_spec, abs_spec in H.
  destruct (Prim2SF x) as [s|s| |s m e]; simpl in H; try discriminate.
  - destruct s; reflexivity.
  - destruct s; discriminate.
  - unfold SF64sub, SFsub. simpl.
    destruct s; simpl; rewrite ?Z.sub_diag, ?Z.add_opp_diag_r;
      try reflexivity; rewrite Z.pos_sub_diag; reflexivity.
Qed.

Lemma zero_div_pos t : (0 <? t) = true -> 0 / t = 0.
Proof.
  intros H. apply Prim2SF_inj. rewrite div_spec. rewrite ltb_spec in H.
  change (Prim2SF 0) with (S754_zero false) in *.
  destruct (Prim2SF t) as [s|s| |s m e]; try discriminate;
    destruct s; try discriminate; reflexivity.
Qed.

Lemma zero_div_zero t : (t =? 0) = true -> 0 / t = nan.
Proof.
  intros H. apply Prim2SF_inj. rewrite div_spec. rewrite eqb_spec in H.
  change (Prim2SF 0) with (S754_zero false) in *.
  destruct (Prim2SF t) as [s|s| |s m e]; try discriminate;
    try reflexivity; destruct s; discriminate.
Qed.

(** *** The pairwise sum

    The nesting bound of [Np.pairwise_sum] is not felt: with a bound of at
    least the length of the array, a block is summed by [Np.block_sum] and a
    longer array is the sum of its two parts, as in NumPy's recursion. *)

Lemma halves_shorter n :
  (Np.PW_BLOCKSIZE < n)%nat ->
  (0 < n / 2 - (n / 2) mod 8 < n)%nat.
Proof.
  unfold Np.PW_BLOCKSIZE. intros H.
  pose proof (Nat.div_mod_eq n 2) as E.
  pose proof (Nat.mod_upper_bound n 2) as B2.
  pose proof (Nat.mod_upper_bound (n / 2) 8) as B8.
  lia.
Qed.

Lemma pairwise_sum_block d a :
  (length a <= Np.PW_BLOCKSIZE)%nat -> Np.pairwise_sum d a = Np.block_sum a.
Proof.
  intros H. apply Nat.leb_le in H. destruct d; simpl; [reflexivity|].
  now rewrite H.
Qed.

Lemma pairwise_sum_depth d : forall d' a,
  (length a <= d)%nat -> (length a <= d')%nat ->
  Np.pairwise_sum d a = Np.pairwise_sum d' a.
Proof.
  induction d as [|d IH]; intros d' a Hd Hd'.
  - rewrite !pairwise_sum_block; auto; unfold Np.PW_BLOCKSIZE; lia.
  - destruct d' as [|d'].
    + rewrite !pairwise_sum_block; auto; unfold Np.PW_BLOCKSIZE; lia.
    + cbn [Np.pairwise_sum].
      destruct (length a <=? Np.PW_BLOCKSIZE)%nat eqn:E; [reflexivity|].
      apply Nat.leb_gt in E. pose proof (halves_shorter _ E) as Hn.
      f_equal; apply IH; rewrite ?length_firstn, ?length_skipn; lia.
Qed.

Lemma pairwise_sum_split d a :
  (Np.PW_BLOCKSIZE < length a)%nat -> (length a <= d)%nat ->
  let n2 := (length a / 2 - (length a / 2) mod 8)%nat in
  Np.pairwise_sum d a
  = Np.pairwise_sum (length (firstn n2 a)) (firstn n2 a)
    + Np.pairwise_sum (length (skipn n2 a)) (skipn n2 a).
Proof.
  intros Hn Hd n2. pose proof (halves_shorter _ Hn) as Hh. fold n2 in Hh.
  destruct d as [|d]; [lia|]. cbn [Np.pairwise_sum]. fold n2.
  apply Nat.leb_gt in Hn. rewrite Hn.
  f_equal; apply pairwise_sum_depth; rewrite ?length_firstn, ?length_skipn; lia.
Qed.

(** [np.sum] of an array above the block size is [0.0] plus the sum of the
    pairwise sums of its two parts. *)
Lemma sum_split v :
  (Np.PW_BLOCKSIZE < length v)%nat ->
  let n2 := (length v / 2 - (length v / 2) mod 8)%nat in
  Np.sum v
  = 0 + (Np.pairwise_sum (length (firstn n2 v)) (firstn n2 v)
         + Np.pairwise_sum (length (skipn n2 v)) (skipn n2 v)).
Proof.
  intros Hn n2. unfold Np.sum. f_equal.
  now apply pairwise_sum_split.
Qed.

(** Up to the block size it is [0.0] plus the sum of the block. *)
Lemma sum_block v :
  (length v <= Np.PW_BLOCKSIZE)%nat -> Np.sum v = 0 + Np.block_sum v.
Proof. intros H. unfold Np.sum. now rewrite pairwise_sum_block. Qed.

(** *** Short arrays

    Below eight entries [np.sum] adds the entries one by one.  Whether the
    running sum starts from [-0.0] or from [0.0] makes no difference once
    it is added to the identity [0.0]. *)

Lemma neg_zero_add x : neg_zero + x = x.
Proof.
  apply Prim2SF_inj. rewrite add_spec.
  change (Prim2SF neg_zero) with (S754_zero true).
  destruct (Prim2SF x) as [s|s| |s m e]; try reflexivity.
  destruct s; reflexivity.
Qed.

Lemma zero_add t : Prim2SF t <> S754_zero true -> 0 + t = t.
Proof.
  intros H. apply Prim2SF_inj. rewrite add_spec.
  change (Prim2SF 0) with (S754_zero false).
  destruct (Prim2SF t) as [s|s| |s m e]; try reflexivity.
  destruct s; [contradiction|reflexivity].
Qed.

Lemma fold_add_start a : forall s t,
  s = t \/ (s = neg_zero /\ t = 0) ->
  0 + fold_left PrimFloat.add a s = 0 + fold_left PrimFloat.add a t.
Proof.
  induction a as [|x a IH]; intros s t [E|[Es Et]]; subst; try reflexivity.
  cbn [fold_left]. apply IH. rewrite neg_zero_add.
  destruct (Prim2SF x) as [[|]|sx| |sx m e] eqn:Ex.
  - assert (Hx : x = neg_zero) by (apply Prim2SF_inj; rewrite Ex; reflexivity).
    subst x. right. split; reflexivity.
  - left. symmetry. apply zero_add. rewrite Ex. discriminate.
  - left. symmetry. apply zero_add. rewrite Ex. discriminate.
  - left. symmetry. apply zero_add. rewrite Ex. discriminate.
  - left. symmetry. apply zero_add. rewrite Ex. discriminate.
Qed.

Lemma sum_short v :
  (length v < 8)%nat -> Np.sum v = 0 + fold_left PrimFloat.add v 0.
Proof.
  intros H. rewrite sum_block by (unfold Np.PW_BLOCKSIZE; lia).
  assert (E : Np.block_sum v = fold_left PrimFloat.add v neg_zero).
  { do 8 (destruct v as [|? v]; [reflexivity|]). simpl in H. lia. }
  rewrite E. apply fold_add_start. now right.
Qed.

(** *** Sums of zeros *)

Lemma fold_add_zeros a :
  Forall (fun x => x = 0) a -> fold_left PrimFloat.add a 0 = 0.
Proof.
  induction 1 as [|x a Hx _ IH]; [reflexivity|]. subst x. exact IH.
Qed.

Lemma unrolled_add_zeros n : forall a,
  (length a <= n)%nat -> Forall (fun x => x = 0) a ->
  exists rest,
    Np.unrolled_add 0 0 0 0 0 0 0 0 a = (0, rest) /\
    Forall (fun x => x = 0) rest.
Proof.
  induction n as [|n IH]; intros a Hn Hz.
  - destruct a; [|simpl in Hn; lia]. exists []. split; [reflexivity|constructor].
  - do 8 (destruct Hz as [|? a ? Hz];
          [eexists; split; [reflexivity|repeat constructor; assumption]|subst]).
    cbn [Np.unrolled_add].
    change (0 + 0) with 0.
    apply IH; [simpl in Hn; lia|exact Hz].
Qed.

Lemma block_sum_zeros a :
  Forall (fun x => x = 0) a -> a <> [] -> Np.block_sum a = 0.
Proof.
  intros Hz Ha. destruct Hz as [|x a Hx Hz]; [contradiction|]. subst x.
  do 7 (destruct Hz as [|? a ? Hz]; [reflexivity|subst]).
  cbn [Np.block_sum].
  destruct (unrolled_add_zeros (length a) a (le_n _) Hz) as (rest & E & Hr).
  rewrite E. now apply fold_add_zeros.
Qed.

Lemma zeros_firstn k (a : list float) :
  Forall (fun x => x = 0) a -> Forall (fun x => x = 0) (firstn k a).
Proof.
  intros H. revert k.
  induction H as [|x a Hx _ IH]; intros [|k]; simpl; auto.
Qed.

Lemma zeros_skipn k (a : list float) :
  Forall (fun x => x = 0) a -> Forall (fun x => x = 0) (skipn k a).
Proof.
  intros H. revert k.
  induction H as [|x a Hx Ha IH]; intros [|k]; simpl; auto.
Qed.

Lemma pairwise_sum_zeros d : forall a,
  Forall (fun x => x = 0) a -> a <> [] -> Np.pairwise_sum d a = 0.
Proof.
  induction d as [|d IH]; intros a Hz Ha.
  - now apply block_sum_zeros.
  - cbn [Np.pairwise_sum].
    destruct (length a <=? Np.PW_BLOCKSIZE)%nat eqn:E.
    + now apply block_sum_zeros.
    + apply Nat.leb_gt in E. pose proof (halves_shorter _ E) as Hn.
      rewrite !IH; try reflexivity;
        try apply zeros_firstn; try apply zeros_skipn; auto;
        intros E0; apply (f_equal (@length float)) in E0;
        rewrite ?length_firstn, ?length_skipn in E0; cbn [length] in E0; lia.
Qed.

Lemma sum_zeros {A} (l : list A) : Np.sum (map (fun _ => 0) l) = 0.
Proof.
  unfold Np.sum. destruct l as [|a l]; [reflexivity|].
  rewrite pairwise_sum_zeros; [reflexivity| |discriminate].
  rewrite Forall_forall. intros x Hx.
  apply in_map_iff in Hx as (? & <- & _). reflexivity.
Qed.

Lemma mean_zeros {A} (l : list A) :
  l <> [] -> (Z.of_nat (length l) < 2 ^ 63)%Z ->
  Np.mean (map (fun _ => 0) l) = 0.
Proof.
  intros Hl Hb. unfold Np.mean. rewrite sum_zeros, length_map.
  apply zero_div_pos, float_of_nat_pos; auto.
  destruct l; [contradiction|simpl; lia].
Qed.

End Binary64.

(* ================================================================= *)
(** ** [evaluate_regression] on identical vectors *)

Section Identical.

Local Open Scope float_scope.

Variable y : list float.

Hypothesis finite : Forall (fun v => is_finite v = true) y.
Hypothesis ssize : (Z.of_nat (length y) < 2 ^ 63)%Z.

Lemma residual_zero : Np.subtract y y = Ok (map (fun _ => 0) y).
Proof.
  unfold Np.subtract. rewrite broadcast_same_length by reflexivity.
  rewrite zip_with_same. f_equal. apply map_ext_in. intros v Hv.
  apply sub_self_finite. rewrite Forall_forall in finite. now apply finite.
Qed.

Lemma multiply_same v : Np.multiply v v = Ok (map (fun a => a * a) v).
Proof.
  unfold Np.multiply. rewrite broadcast_same_length by reflexivity.
  now rewrite zip_with_same.
Qed.

(** What [evaluate_regression y y] computes, with only [R2] left open. *)
Lemma evaluate_identical :
  y <> [] ->
  evaluate_regression y y
  = Ok [("R2", 1 - 0 / ss_tot y); ("RMSE", 0); ("MAE", 0)]%string.
Proof.
  intros Hy. unfold evaluate_regression.
  rewrite residual_zero. cbn [rbind].
  rewrite !multiply_same. cbn [rbind].
  unfold Np.square. rewrite !map_map.
  change (fun x : float => 0 * 0) with (fun _ : float => 0).
  change (fun x : float => abs 0) with (fun _ : float => 0).
  rewrite sum_zeros, (mean_zeros y Hy ssize).
  unfold ss_tot. reflexivity.
Qed.

(** C5, as the code has it.  For a vector [y] of finite values, with
    [SS_tot] as the code computes it in float64:
    when [SS_tot] is positive, [evaluate_regression(y, y)] is
    [R2 = 1.0], [RMSE = 0.0], [MAE = 0.0]; when [y] is not empty and
    [SS_tot] is zero, as for a constant [y] whose mean is computed exactly,
    the division [0 / 0] is carried through and [R2] is NaN, with
    [RMSE = 0.0] and [MAE = 0.0]. *)
Theorem evaluate_regression_identical :
  ((0 <? ss_tot y) = true ->
   evaluate_regression y y
   = Ok [("R2", 1); ("RMSE", 0); ("MAE", 0)]%string) /\
  (y <> [] -> (ss_tot y =? 0) = true ->
   evaluate_regression y y
   = Ok [("R2", nan); ("RMSE", 0); ("MAE", 0)]%string).
Proof.
  split.
  - intros Hpos.
    assert (Hy : y <> []) by (intros ->; discriminate).
    rewrite (evaluate_identical Hy), (zero_div_pos _ Hpos). reflexivity.
  - intros Hy Hz.
    rewrite (evaluate_identical Hy), (zero_div_zero _ Hz). reflexivity.
Qed.

End Identical.

Lemma evaluate_regression_identical_example :
  evaluate_regression [1; 2; 3]%float [1; 2; 3]%float
  = Ok [("R2", 1%float); ("RMSE", 0%float); ("MAE", 0%float)] /\
  evaluate_regression (repeat 0.1%float 13) (repeat 0.1%float 13)
  = Ok [("R2", 1%float); ("RMSE", 0%float); ("MAE", 0%float)] /\
  evaluate_regression (repeat 0.1%float 8) (repeat 0.1%float 8)
  = Ok [("R2", nan); ("RMSE", 0%float); ("MAE", 0%float)].
Proof.
  split; [|split].
  - apply (evaluate_regression_identical [1; 2; 3]%float).
    + repeat constructor.
    + reflexivity.
    + reflexivity.
  - apply (evaluate_regression_identical (repeat 0.1%float 13)).
    + repeat constructor.
    + reflexivity.
    + reflexivity.
  - apply (evaluate_regression_identical (repeat 0.1%float 8)).
    + repeat constructor.
    + reflexivity.
    + discriminate.
    + reflexivity.
Defined.

(** C5 as stated fails on a constant vector whose mean is computed
    exactly: [SS_tot] is zero and [R2] is NaN, not [1.0].  Two entries [2.0]
    are such a vector, and so are eight entries [0.1], which the eight
    partial sums add without a rounding error. *)
Lemma evaluate_regression_constant :
  evaluate_regression [2; 2]%float [2; 2]%float
  = Ok [("R2", nan); ("RMSE", 0%float); ("MAE", 0%float)] /\
  evaluate_regression (repeat 0.1%float 8) (repeat 0.1%float 8)
  = Ok [("R2", nan); ("RMSE", 0%float); ("MAE", 0%float)] /\
  PrimFloat.eqb nan 1 = false /\
  is_nan nan = true.
Proof. vm_compute. repeat split. Qed.

(* ================================================================= *)
(** ** Columns and transposition *)

Lemma map_nth_seq_id {A} (l : list A) (d : A) :
  map (fun i => nth i l d) (seq 0 (length l)) = l.
Proof.
  induction l as [|a l IH]; simpl; auto.
  f_equal. rewrite <- seq_shift, map_map. exact IH.
Qed.

Lemma flat_map_some {A B} (f : A -> option B) (g : A -> B) (l : list A) :
  (forall a, In a l -> f a = Some (g a)) ->
  flat_map (fun a => match f a with Some b => [b] | None => [] end) l
  = map g l.
Proof.
  induction l as [|a l IH]; intros Hf; simpl; auto.
  rewrite (Hf a) by (now left). simpl. f_equal. apply IH.
  intros a' Ha'. apply Hf. now right.
Qed.

Lemma column_nth {A} (X : matrix A) (i : nat) (d : A) :
  wf X -> i < n_cols X -> column i X = map (fun r => nth i r d) (rows X).
Proof.
  unfold wf, column. intros Hwf Hi. apply flat_map_some.
  intros r Hr. rewrite Forall_forall in Hwf.
  apply nth_error_nth'. rewrite (Hwf r Hr). exact Hi.
Qed.

Lemma column_length {A} (X : matrix A) (i : nat) :
  wf X -> i < n_cols X -> length (column i X) = n_rows X.
Proof.
  intros Hwf Hi. destruct (rows X) as [|r rs] eqn:E.
  - unfold column, n_rows. now rewrite E.
  - destruct r as [|d r'].
    + exfalso. unfold wf in Hwf. rewrite E in Hwf.
      apply Forall_inv in Hwf. simpl in Hwf. lia.
    + rewrite (column_nth X i d Hwf Hi). apply length_map.
Qed.

(** Stacking columns of one length and reading the columns back. *)
Lemma columns_transpose {A} (m : nat) (cols : list (list A)) :
  Forall (fun c => length c = m) cols ->
  columns (transpose (mk_matrix m cols)) = cols.
Proof.
  intros Hlen.
  assert (Hwf : wf (mk_matrix m cols)) by exact Hlen.
  unfold columns at 1. unfold transpose at 1. cbn [n_cols]. unfold n_rows.
  cbn [rows].
  transitivity (map (fun j => nth j cols []) (seq 0 (length cols)));
    [|apply map_nth_seq_id].
  apply map_ext_in. intros j Hj. apply in_seq in Hj.
  rewrite Forall_forall in Hlen.
  assert (Hjm : length (nth j cols []) = m).
  { apply Hlen, nth_In. lia. }
  destruct (nth j cols []) as [|d c'] eqn:Ej.
  - simpl in Hjm. subst m. reflexivity.
  - rewrite <- Ej in *. clear Ej c'.
    transitivity (map (fun i => nth i (nth j cols []) d) (seq 0 m));
      [|rewrite <- Hjm; apply map_nth_seq_id].
    unfold column at 1. unfold transpose. cbn [rows]. unfold columns.
    cbn [n_cols].
    rewrite (flat_map_some (fun r => nth_error r j) (fun r => nth j r d)).
    + rewrite map_map. apply map_ext_in. intros i Hi. apply in_seq in Hi.
      rewrite (column_nth (mk_matrix m cols) i d Hwf) by (cbn [n_cols]; lia).
      cbn [rows].
      rewrite (nth_indep _ d (nth i [] d)) by (rewrite length_map; lia).
      now rewrite (map_nth (fun r => nth i r d)).
    + intros r Hr. apply in_map_iff in Hr as (i & <- & Hi).
      apply in_seq in Hi. apply nth_error_nth'.
      rewrite (column_length (mk_matrix m cols) i Hwf) by (cbn [n_cols]; lia).
      unfold n_rows; cbn [rows]. lia.
Qed.

(* ================================================================= *)
(** ** [one_hot_encode] *)

Section EncoderFacts.

Context {C : Type} `{Dtype C}.

Lemma astype_float_length (v : list C) t :
  astype_float v = Ok t -> length t = length v.
Proof.
  revert t; induction v as [|x v IH]; simpl; intros t.
  - now intros [= <-].
  - destruct (elem_float x) as [f|e]; simpl; [|discriminate].
    destruct (astype_float v) as [t'|e]; simpl; [|discriminate].
    intros [= <-]. simpl. f_equal. now apply IH.
Qed.

Lemma indicator_columns (col : list C) (categories : list C) acc :
  for_each_r categories
    (fun category acc => Ok (acc ++ [indicator col category])) acc
  = Ok (acc ++ map (indicator col) categories).
Proof.
  revert acc; induction categories as [|c cs IH]; intros acc; simpl.
  - now rewrite app_nil_r.
  - rewrite IH, <- app_assoc. reflexivity.
Qed.

Variables (X : matrix C) (categorical_indices : list Z) (drop_first : bool).
Variable numeric : nat -> list float.

Hypothesis X_wf : wf X.
Hypothesis castable : forall i,
  i < n_cols X -> is_categorical categorical_indices i = false ->
  astype_float (column i X) = Ok (numeric i).

Lemma encode_step_block i acc :
  i < n_cols X ->
  encode_step X categorical_indices drop_first (Z.of_nat i) acc
  = Ok (acc ++ encoded_block X categorical_indices drop_first numeric i).
Proof.
  intros Hi. unfold encode_step, encoded_block, is_categorical.
  rewrite Nat2Z.id.
  destruct (existsb (Z.eqb (Z.of_nat i)) categorical_indices) eqn:E.
  - apply indicator_columns.
  - rewrite (castable i Hi E). reflexivity.
Qed.

Lemma encode_loop n : forall a acc,
  a + n <= n_cols X ->
  for_each_r (map Z.of_nat (seq a n))
    (encode_step X categorical_indices drop_first) acc
  = Ok (acc ++ flat_map (encoded_block X categorical_indices drop_first numeric)
                        (seq a n)).
Proof.
  induction n as [|n IH]; intros a acc Hn; simpl.
  - now rewrite app_nil_r.
  - rewrite encode_step_block by lia. simpl.
    rewrite IH by lia. now rewrite <- app_assoc.
Qed.

Lemma encoded_columns_length :
  Forall (fun c => length c = n_rows X)
         (encoded_columns X categorical_indices drop_first numeric).
Proof.
  apply Forall_forall. intros c Hc. unfold encoded_columns in Hc.
  apply in_flat_map in Hc as (i & Hi & Hc). apply in_seq in Hi.
  unfold encoded_block in Hc.
  destruct (is_categorical categorical_indices i) eqn:E.
  - apply in_map_iff in Hc as (cat & <- & _).
    unfold indicator. rewrite length_map. apply column_length; auto. lia.
  - destruct Hc as [<-|[]].
    rewrite (astype_float_length _ _ (castable i ltac:(lia) E)).
    apply column_length; auto. lia.
Qed.

(** The encoder returns the emitted columns, stacked, when there is one. *)
Lemma one_hot_encode_stack :
  encoded_columns X categorical_indices drop_first numeric <> [] ->
  one_hot_encode X categorical_indices drop_first
  = Ok (transpose (mk_matrix (n_rows X)
          (encoded_columns X categorical_indices drop_first numeric))).
Proof.
  intros Hne. unfold one_hot_encode, py_range. rewrite Nat2Z.id.
  rewrite encode_loop by lia. cbn [app rbind].
  fold (encoded_columns X categorical_indices drop_first numeric).
  pose proof encoded_columns_length as Hlen.
  destruct (encoded_columns X categorical_indices drop_first numeric)
    as [|c cols] eqn:E; [contradiction|].
  unfold column_stack.
  assert (Hc : length c = n_rows X) by (apply (Forall_inv Hlen)).
  rewrite Hc.
  replace (forallb (fun c' => (length c' =? n_rows X)%nat) (c :: cols))
    with true; [reflexivity|].
  symmetry. apply forallb_forall. intros c' Hc'.
  rewrite Forall_forall in Hlen. apply Nat.eqb_eq. now apply Hlen.
Qed.

(** With no column to stack, [np.column_stack] raises. *)
Lemma one_hot_encode_empty :
  encoded_columns X categorical_indices drop_first numeric = [] ->
  one_hot_encode X categorical_indices drop_first
  = Raise (ValueError need_at_least_one_array).
Proof.
  intros He. unfold one_hot_encode, py_range. rewrite Nat2Z.id.
  rewrite encode_loop by lia. cbn [app rbind].
  fold (encoded_columns X categorical_indices drop_first numeric).
  now rewrite He.
Qed.

End EncoderFacts.

Section UniqueFacts.

Context {C : Type} `{LawfulDtype C}.

Let lt (a b : C) : Prop := elem_ltb a b = true.

Lemma insert_unique_In x l c :
  In c (insert_unique x l) <-> c = x \/ In c l.
Proof.
  induction l as [|y l IH]; simpl.
  - intuition.
  - destruct (elem_ltb x y).
    + simpl. intuition.
    + destruct (elem_eqb x y) eqn:E.
      * apply elem_eqb_eq in E. subst. simpl. intuition.
      * simpl. rewrite IH. intuition.
Qed.

Lemma insert_unique_sorted x l :
  StronglySorted lt l -> StronglySorted lt (insert_unique x l).
Proof.
  induction 1 as [|y l Hs IH Hy]; simpl.
  - repeat constructor.
  - destruct (elem_ltb x y) eqn:Elt.
    + constructor; [now constructor|]. constructor; [exact Elt|].
      eapply Forall_impl; [|exact Hy]. intros z Hz. unfold lt in *.
      now apply elem_ltb_trans with y.
    + destruct (elem_eqb x y) eqn:Eeq.
      * now constructor.
      * constructor; [exact IH|]. apply Forall_forall. intros z Hz.
        apply insert_unique_In in Hz as [->|Hz].
        -- unfold lt. now apply elem_ltb_total.
        -- rewrite Forall_forall in Hy. now apply Hy.
Qed.

(** [np.unique]: strictly increasing, with the entries of its argument. *)
Lemma unique_sorted v : StronglySorted lt (unique v).
Proof.
  unfold unique. induction v; simpl; [constructor|].
  now apply insert_unique_sorted.
Qed.

Lemma unique_In v c : In c (unique v) <-> In c v.
Proof.
  unfold unique. induction v as [|x v IH]; simpl; [tauto|].
  rewrite insert_unique_In, IH. intuition.
Qed.

End UniqueFacts.

(** Strings are a lawful element type, whatever the conversion to float. *)
Lemma str_dtype_lawful float_of_str :
  @LawfulDtype string (str_dtype float_of_str).
Proof.
  constructor; cbn [elem_eqb elem_ltb str_dtype]; unfold str_ltb.
  - apply String.eqb_eq.
  - intros a. destruct (String_as_OT.compare_spec a a) as [_|Hlt|_]; auto.
    exfalso. exact (StrictOrder_Irreflexive a Hlt).
  - intros a b c Hab Hbc.
    destruct (String_as_OT.compare a b) eqn:Eab; try discriminate.
    destruct (String_as_OT.compare b c) eqn:Ebc; try discriminate.
    assert (Hac : String_as_OT.lt a c).
    { eapply StrictOrder_Transitive; [exact Eab|exact Ebc]. }
    unfold String_as_OT.lt in Hac. now rewrite Hac.
  - intros a b Hlt Heq.
    destruct (String_as_OT.compare_spec a b) as [E|Hab|Hba].
    + unfold String_as_OT.eq in E. subst.
      now rewrite String.eqb_refl in Heq.
    + discriminate.
    + unfold String_as_OT.lt in Hba. now rewrite Hba.
Qed.

Section EncoderSpec.

Context {C : Type} `{LawfulDtype C}.

(** C6, as the code has it.  For a well-formed [X] whose non-categorical
    columns convert to float and which yields at least one output column,
    [one_hot_encode] returns the matrix whose columns are, for the columns
    [i] of [X] from left to right and in place: if [i] is categorical, one
    indicator column ([1.0] where the entry equals the category, else
    [0.0]) per category, the categories being the distinct values of
    column [i] in strictly increasing order, without the first of them when
    [drop_first] is set; otherwise column [i] cast to float.  The result
    has the rows of [X]. *)
Theorem one_hot_encode_columns (X : matrix C) (categorical_indices : list Z)
    (drop_first : bool) (numeric : nat -> list float) :
  wf X ->
  (forall i, i < n_cols X -> is_categorical categorical_indices i = false ->
             astype_float (column i X) = Ok (numeric i)) ->
  encoded_columns X categorical_indices drop_first numeric <> [] ->
  (exists M,
     one_hot_encode X categorical_indices drop_first = Ok M /\
     columns M = encoded_columns X categorical_indices drop_first numeric /\
     n_rows M = n_rows X) /\
  (forall i,
     encoded_block X categorical_indices drop_first numeric i
     = if is_categorical categorical_indices i
       then map (fun category =>
                   map (fun x => if elem_eqb x category
                                 then 1%float else 0%float) (column i X))
                (if drop_first then tl (unique (column i X))
                 else unique (column i X))
       else [numeric i]) /\
  (forall i,
     StronglySorted (fun a b => elem_ltb a b = true) (unique (column i X)) /\
     (forall c, In c (unique (column i X)) <-> In c (column i X))).
Proof.
  intros Hwf Hcast Hne. split; [|split].
  - exists (transpose (mk_matrix (n_rows X)
              (encoded_columns X categorical_indices drop_first numeric))).
    split; [now apply one_hot_encode_stack|]. split.
    + apply columns_transpose. now apply encoded_columns_length.
    + unfold n_rows at 1. unfold transpose. cbn [rows].
      now rewrite columns_length.
  - reflexivity.
  - intros i. split; [apply unique_sorted|apply unique_In].
Qed.

End EncoderSpec.

(** The column ["a", "b", "a"], with and without the first category, and a
    matrix with a numeric column between two categorical ones. *)
Lemma one_hot_encode_columns_example :
  (exists M,
     @one_hot_encode string (str_dtype float_of_digits)
       (mk_matrix 1 [["a"]; ["b"]; ["a"]]) [0%Z] false = Ok M /\
     columns M = [[1; 0; 1]; [0; 1; 0]]%float /\
     n_rows M = 3) /\
  (exists M,
     @one_hot_encode string (str_dtype float_of_digits)
       (mk_matrix 1 [["a"]; ["b"]; ["a"]]) [0%Z] true = Ok M /\
     columns M = [[0; 1; 0]]%float /\
     n_rows M = 3) /\
  (exists M,
     @one_hot_encode string (str_dtype float_of_digits)
       (mk_matrix 3 [["b"; "10"; "x"]; ["a"; "20"; "y"]; ["b"; "30"; "x"]])
       [0%Z; 2%Z] false = Ok M /\
     columns M = [[0; 1; 0]; [1; 0; 1]; [10; 20; 30]; [1; 0; 1]; [0; 1; 0]]%float /\
     n_rows M = 3).
Proof.
  split; [|split].
  - apply (@one_hot_encode_columns string (str_dtype float_of_digits)
             (str_dtype_lawful float_of_digits)
             (mk_matrix 1 [["a"]; ["b"]; ["a"]]) [0%Z] false (fun _ => [])).
    + repeat constructor.
    + intros [|i] Hi E; [discriminate|]. simpl in Hi. lia.
    + discriminate.
  - apply (@one_hot_encode_columns string (str_dtype float_of_digits)
             (str_dtype_lawful float_of_digits)
             (mk_matrix 1 [["a"]; ["b"]; ["a"]]) [0%Z] true (fun _ => [])).
    + repeat constructor.
    + intros [|i] Hi E; [discriminate|]. simpl in Hi. lia.
    + discriminate.
  - apply (@one_hot_encode_columns string (str_dtype float_of_digits)
             (str_dtype_lawful float_of_digits)
             (mk_matrix 3 [["b"; "10"; "x"]; ["a"; "20"; "y"]; ["b"; "30"; "x"]])
             [0%Z; 2%Z] false (fun _ => [10; 20; 30]%float)).
    + repeat constructor.
    + intros [|[|[|i]]] Hi E; try discriminate; [reflexivity|].
      simpl in Hi. lia.
    + discriminate.
Defined.

(** C6 as stated fails when nothing is emitted: a single categorical column
    with one distinct value and [drop_first] leaves no column, and
    [np.column_stack] refuses an empty list. *)
Lemma one_hot_encode_nothing_to_stack :
  wfb (mk_matrix 1 [["a"]; ["a"]]) = true /\
  @unique string (str_dtype float_of_digits) ["a"; "a"] = ["a"] /\
  @one_hot_encode string (str_dtype float_of_digits)
    (mk_matrix 1 [["a"]; ["a"]]) [0%Z] true
  = Raise (ValueError need_at_least_one_array).
Proof. vm_compute. repeat split. Qed.

(* ================================================================= *)
(** ** [fit_gradient_descent]: edges *)

(** X1. With [iterations <= 0] the loop body never runs, so the name
    [training_history] is never bound: [fit_gradient_descent] raises
    [UnboundLocalError] at the first plot, whatever [X] and [y] are, after it
    has drawn the random start, stored it in the model and opened one
    figure. *)
Theorem fit_gradient_descent_no_epoch (X : matrix float) (y : list float)
    (lr : float) (iterations : Z) (w : world) :
  (iterations <= 0)%Z ->
  fit_gradient_descent X y lr iterations w
  = (Raise (UnboundLocalError "training_history"),
     mk_world (Ref.fitted (Ref.gd_start w (n_cols X))) (draws w)
              (S (drawn w + n_cols X)) (out w ++ [plt_figure])).
Proof.
  intros Hit. unfold fit_gradient_descent, gd_train, py_range.
  replace (Z.to_nat iterations) with 0 by lia.
  reflexivity.
Qed.

Lemma fit_gradient_descent_no_epoch_example :
  fit_gradient_descent (mk_matrix 1 [[1]; [2]]%float) [5; 8]%float 0.1%float 0
    (mk_world init (fun _ => 0.5%float) 0 [])
  = (Raise (UnboundLocalError "training_history"),
     mk_world (mk_regressor (Some [0.005%float]) (Some 0.005%float))
              (fun _ => 0.5%float) 2 [plt_figure]).
Proof.
  apply (fit_gradient_descent_no_epoch (mk_matrix 1 [[1]; [2]]%float)
           [5; 8]%float 0.1%float 0 (mk_world init (fun _ => 0.5%float) 0 [])).
  discriminate.
Defined.

(** The first epoch on a matrix without rows divides by [m = 0]. *)
Lemma gd_epoch_no_rows X y lr epoch loc w b c :
  self w = mk_regressor (Some c) (Some b) ->
  length c = n_cols X ->
  n_rows X = 0 ->
  length y <= 1 ->
  gd_epoch X y lr epoch loc w = (Raise ZeroDivisionError, w).
Proof.
  intros Hs Hc Hm Hy.
  unfold gd_epoch, bind, lift.
  rewrite (predict_2d X w b c Hs), dot_vec_aligned by (simpl; now rewrite Hc).
  rewrite mat_vec_c_ones. cbv beta iota. rewrite Hm.
  unfold n_rows in Hm. apply length_zero_iff_nil in Hm. rewrite Hm.
  destruct y as [|y0 [|y1 ys]]; [reflexivity|reflexivity|simpl in Hy; lia].
Qed.

(** X2. With a learning rate that is a Python [float], as documented and
    as the default [0.01] is: on an [X] without rows and a [y] of at most
    one entry, a gradient-descent fit of at least one epoch raises
    [ZeroDivisionError] in its first epoch (Python's [2 * learning_rate / m]
    with [m = 0]); the model is left at the random start and nothing is
    printed or plotted.  (A NumPy float64 scalar as learning rate would
    divide to an infinity instead; it lies outside this model.) *)
Theorem fit_gradient_descent_no_rows (X : matrix float) (y : list float)
    (lr : float) (iterations : Z) (w : world) :
  n_rows X = 0 ->
  length y <= 1 ->
  (1 <= iterations)%Z ->
  fit_gradient_descent X y lr iterations w
  = (Raise ZeroDivisionError,
     mk_world (Ref.fitted (Ref.gd_start w (n_cols X))) (draws w)
              (S (drawn w + n_cols X)) (out w)).
Proof.
  intros Hm Hy Hit.
  unfold fit_gradient_descent, gd_train, py_range.
  destruct (Z.to_nat iterations) as [|n] eqn:EN; [lia|].
  cbn [seq map for_each].
  unfold bind at 1. unfold bind at 1. unfold random_rand_n at 1.
  unfold bind at 1. unfold set_coefficients at 1.
  unfold bind at 1. unfold random_rand at 1.
  unfold bind at 1. unfold set_intercept at 1.
  unfold with_self. cbn [self draws drawn out coefficients intercept].
  unfold bind at 1.
  rewrite (gd_epoch_no_rows X y lr _ _ _
             (draws w (drawn w + n_cols X) * 0.01)%float
             (map (fun u => u * 0.01)%float
                  (map (draws w) (seq (drawn w) (n_cols X)))));
    auto.
  now rewrite !length_map, length_seq.
Qed.

Lemma fit_gradient_descent_no_rows_example :
  fit_gradient_descent (mk_matrix 2 []) [] 0.1%float 5
    (mk_world init (fun _ => 0.5%float) 0 [])
  = (Raise ZeroDivisionError,
     mk_world (mk_regressor (Some [0.005; 0.005]%float) (Some 0.005%float))
              (fun _ => 0.5%float) 3 []).
Proof.
  apply (fit_gradient_descent_no_rows (mk_matrix 2 []) [] 0.1%float 5
           (mk_world init (fun _ => 0.5%float) 0 []));
    [reflexivity | apply le_0_n | discriminate].
Defined.

(* ================================================================= *)
(** ** [fit_gradient_descent]: what every call leaves behind *)

Lemma isub_length u v t : Np.isub u v = Ok t -> length t = length u.
Proof.
  unfold Np.isub. destruct (length u =? length v)%nat eqn:E.
  - apply Nat.eqb_eq in E. intros [= <-]. rewrite zip_with_length. lia.
  - destruct v as [|b [|b' v']]; try discriminate.
    intros [= <-]. apply length_map.
Qed.

Lemma gd_state_refl n w b c :
  self w = mk_regressor (Some c) (Some b) -> length c = n -> gd_state n w w.
Proof. intros Hs Hc. split; eauto. Qed.

(** An epoch, whether it returns or raises, keeps the shape of the model. *)
Lemma gd_epoch_state X y lr epoch loc w :
  gd_state (n_cols X) w w ->
  gd_state (n_cols X) w (snd (gd_epoch X y lr epoch loc w)).
Proof.
  intros Hw. destruct Hw as [(b & c & Hs & Hc) _].
  pose proof (gd_state_refl _ w b c Hs Hc) as Hrefl.
  unfold gd_epoch, bind, lift, get_self, set_intercept, set_coefficients,
    emit, with_self.
  rewrite (predict_2d X w b c Hs).
  destruct (Mat.dot_vec (Mat.c_ones X) (b :: c)) as [predictions|]; auto.
  destruct (Np.subtract predictions y) as [error|]; auto.
  destruct (Np.py_div (2 * lr) (n_rows X)) as [k|]; auto.
  destruct (Mat.dot_vec (transpose X) error) as [xe|]; auto.
  rewrite Hs. cbn [intercept coefficients self fst snd].
  destruct (Np.isub c (map (PrimFloat.mul k) xe)) as [c'|] eqn:Ec.
  - apply isub_length in Ec.
    assert (Hst : forall o, gd_state (n_cols X) w
              (mk_world (mk_regressor (Some c')
                 (Some (b - k * Np.sum error)%float)) (draws w) (drawn w) o)).
    { intros o. split; [|split; reflexivity].
      exists (b - k * Np.sum error)%float, c'. split; [reflexivity|congruence]. }
    cbn [self draws drawn out intercept coefficients].
    destruct (epoch mod 10 =? 0)%Z.
    + cbn [self draws drawn out].
      destruct (if (epoch =? 0)%Z then Some ([], []) else training_history loc)
        as [[es ms]|]; apply Hst.
    + apply Hst.
  - cbn [snd]. split; [|split; reflexivity].
    exists (b - k * Np.sum error)%float, c. split; [reflexivity|exact Hc].
Qed.

Lemma gd_state_trans n w w1 w2 :
  gd_state n w w1 -> gd_state n w1 w2 -> gd_state n w w2.
Proof.
  intros (_ & Hd1 & Hn1) (Hs2 & Hd2 & Hn2). split; [exact Hs2|].
  split; congruence.
Qed.

Lemma gd_state_self n w w' : gd_state n w w' -> gd_state n w' w'.
Proof. intros (Hs & _ & _). split; auto. Qed.

Lemma gd_loop_state X y lr epochs : forall loc w,
  gd_state (n_cols X) w w ->
  gd_state (n_cols X) w (snd (for_each epochs (gd_epoch X y lr) loc w)).
Proof.
  induction epochs as [|epoch epochs IH]; intros loc w Hw; [exact Hw|].
  cbn [for_each]. unfold bind.
  pose proof (gd_epoch_state X y lr epoch loc w Hw) as H1.
  destruct (gd_epoch X y lr epoch loc w) as [[loc1|e] w1]; cbn [snd] in *.
  - eapply gd_state_trans; [exact H1|].
    apply IH. eapply gd_state_self; exact H1.
  - exact H1.
Qed.

(** The plots only add to the output. *)
Lemma emit_frame l w :
  emit l w = (Ok tt, mk_world (self w) (draws w) (drawn w) (out w ++ l)).
Proof. reflexivity. Qed.

Lemma coefficient_plots_frame hc is_ : forall w,
  let w' := snd (for_each is_
    (fun i _ =>
       emit [plt_figure] ;;
       t <- lift (coefficient_trace (Z.to_nat i) hc) ;;
       emit [plt_plot_y t (coefficient_label (i + 1));
             plt_xlabel (text "Iteration"); plt_ylabel (text "Value");
             plt_title (coefficient_title (i + 1)); plt_legend; plt_show])%method
    tt w) in
  self w' = self w /\ draws w' = draws w /\ drawn w' = drawn w.
Proof.
  induction is_ as [|i is_ IH]; intros w; cbn zeta; [now split|].
  cbn [for_each]. unfold bind, emit, lift. cbn [self draws drawn out].
  destruct (coefficient_trace (Z.to_nat i) hc) as [t|]; [|now split].
  cbn [self draws drawn out].
  match goal with |- context [for_each is_ ?f tt ?w1] =>
    destruct (IH w1) as (Hs & Hd & Hn) end.
  cbn zeta in *. cbn [self draws drawn] in *. auto.
Qed.

Lemma gd_plots_frame loc w :
  self (snd (gd_plots loc w)) = self w /\
  draws (snd (gd_plots loc w)) = draws w /\
  drawn (snd (gd_plots loc w)) = drawn w.
Proof.
  unfold gd_plots. unfold bind at 1. unfold emit at 1.
  unfold bind at 1. unfold lift at 1.
  destruct (training_history loc) as [th|]; [|now split].
  unfold bind at 1. unfold emit at 1.
  unfold bind at 1. unfold lift at 1.
  destruct (history_coefficients loc) as [|h0 h]; [now split|].
  unfold bind at 1. unfold emit at 1. cbn [self draws drawn out].
  match goal with |- context [for_each ?l ?f tt ?w1] =>
    destruct (coefficient_plots_frame (h0 :: h) l w1) as (Hs & Hd & Hn) end.
  cbn zeta in *. cbn [self draws drawn] in *. auto.
Qed.

(** Every call, returning or raising. *)
Lemma fit_gradient_descent_state X y lr iterations w :
  (exists b c,
     self (snd (fit_gradient_descent X y lr iterations w))
     = mk_regressor (Some c) (Some b) /\ length c = n_cols X) /\
  draws (snd (fit_gradient_descent X y lr iterations w)) = draws w /\
  drawn (snd (fit_gradient_descent X y lr iterations w))
  = S (drawn w + n_cols X).
Proof.
  unfold fit_gradient_descent, bind.
  assert (Htrain : gd_state (n_cols X)
            (mk_world (Ref.fitted (Ref.gd_start w (n_cols X))) (draws w)
                      (S (drawn w + n_cols X)) (out w))
            (snd (gd_train X y lr iterations w))).
  { unfold gd_train.
    unfold bind at 1. unfold random_rand_n at 1.
    unfold bind at 1. unfold set_coefficients at 1.
    unfold bind at 1. unfold random_rand at 1.
    unfold bind at 1. unfold set_intercept at 1.
    unfold with_self. cbn [self draws drawn out coefficients intercept].
    apply gd_loop_state. eapply gd_state_refl; [reflexivity|].
    now rewrite !length_map, length_seq. }
  destruct (gd_train X y lr iterations w) as [[loc|e] w1];
    cbv beta iota; cbn [snd] in *.
  - destruct (gd_plots_frame loc w1) as (Hs & Hd & Hn).
    destruct Htrain as ((b & c & Hs1 & Hc) & Hd1 & Hn1).
    rewrite Hs, Hd, Hn. cbn [draws drawn] in *. split; [eauto|]. auto.
  - destruct Htrain as ((b & c & Hs1 & Hc) & Hd1 & Hn1).
    cbn [draws drawn] in *. split; [eauto|]. auto.
Qed.

(** X3. Every call of [fit] with method "gradient_descent", on any [X], [y],
    learning rate and iteration count, and whether it returns or raises,
    leaves both parameters defined, with one coefficient per column of [X],
    and has consumed exactly that many random numbers plus one.  A fit that
    raises is therefore not undone: the previous parameters are lost. *)
Theorem fit_gradient_descent_leaves_model
    (pinv : matrix float -> result (matrix float)) (X : ndarray)
    (y : list float) (lr : float) (iterations : Z) (w : world) :
  (exists b c,
     self (snd (fit pinv X y "gradient_descent" lr iterations w))
     = mk_regressor (Some c) (Some b) /\
     length c = n_cols (as_2d X)) /\
  draws (snd (fit pinv X y "gradient_descent" lr iterations w)) = draws w /\
  drawn (snd (fit pinv X y "gradient_descent" lr iterations w))
  = S (drawn w + n_cols (as_2d X)).
Proof.
  change (fit pinv X y "gradient_descent" lr iterations w)
    with (fit_gradient_descent (as_2d X) y lr iterations w).
  apply fit_gradient_descent_state.
Qed.

(** X4. After any call of [fit_gradient_descent] on [X], even one that
    raised, [predict] does not report an unfitted model: on a 2-D input with
    as many columns as [X] it returns one prediction per row, and on a 1-D
    input, when [X] has at least one column, one prediction per entry. *)
Theorem predict_after_gradient_descent (X : matrix float) (y : list float)
    (lr : float) (iterations : Z) (w : world) (X' : matrix float)
    (v : list float) :
  n_cols X' = n_cols X ->
  (exists p,
     fst (predict (Arr2 X') (snd (fit_gradient_descent X y lr iterations w)))
     = Ok p /\ length p = n_rows X') /\
  (n_cols X <> 0 ->
   exists p,
     fst (predict (Arr1 v) (snd (fit_gradient_descent X y lr iterations w)))
     = Ok p /\ length p = length v).
Proof.
  intros Hn.
  destruct (fit_gradient_descent_state X y lr iterations w)
    as ((b & c & Hs & Hc) & _).
  split.
  - rewrite (predict_2d X' _ b c Hs), dot_vec_aligned
      by (simpl; congruence).
    eexists. split; [reflexivity|].
    rewrite mat_vec_length. unfold n_rows, Mat.c_ones. cbn [rows].
    apply length_map.
  - intros Hpos. unfold predict, bind, get_self, lift, ret. rewrite Hs.
    cbn [coefficients intercept].
    destruct c as [|c0 cs]; [simpl in Hc; congruence|].
    eexists. split; [reflexivity|]. apply length_map.
Qed.

(** A fit that raises on targets of the wrong length, then a prediction. *)
Lemma predict_after_gradient_descent_example :
  fst (fit_gradient_descent (mk_matrix 1 [[1]; [2]]%float) [5; 6; 7]%float
         0.1%float 3 (mk_world init (fun _ => 0.5%float) 0 []))
  = Raise (ValueError operands_not_broadcast) /\
  exists p,
    fst (predict (Arr2 (mk_matrix 1 [[4%float]]))
           (snd (fit_gradient_descent (mk_matrix 1 [[1]; [2]]%float)
                   [5; 6; 7]%float 0.1%float 3
                   (mk_world init (fun _ => 0.5%float) 0 []))))
    = Ok p /\ length p = 1.
Proof.
  split; [reflexivity|].
  apply (predict_after_gradient_descent (mk_matrix 1 [[1]; [2]]%float)
           [5; 6; 7]%float 0.1%float 3
           (mk_world init (fun _ => 0.5%float) 0 [])
           (mk_matrix 1 [[4%float]]) []).
  reflexivity.
Defined.

(* ================================================================= *)
(** ** [predict] and [fit_multiple]: what they leave alone *)

(** X5. [predict] never changes anything: on every input and in every
    state, whether it returns or raises, the model, the random source and
    the output are as before. *)
Theorem predict_changes_nothing (X : ndarray) (w : world) :
  snd (predict X w) = w.
Proof.
  unfold predict, bind, get_self, lift, raise, ret.
  destruct (coefficients (self w)) as [c|], (intercept (self w)) as [b|];
    try reflexivity.
  destruct X as [v|X]; [|reflexivity].
  destruct c; reflexivity.
Qed.

Section LeastSquares.

Variable pinv : matrix float -> result (matrix float).

Lemma fit_multiple_cases X y w :
  (exists e, fit_multiple pinv X y w = (Raise e, w)) \/
  (exists b c,
     fit_multiple pinv X y w
     = (Ok tt, with_self w (mk_regressor (Some c) (Some b))) /\
     exists P Q,
       pinv (Ref.gram X) = Ok P /\
       Mat.dot P (transpose (Mat.c_ones X)) = Ok Q /\
       Mat.dot_vec Q y = Ok (b :: c)).
Proof.
  unfold fit_multiple, bind, lift, set_intercept, set_coefficients, with_self.
  rewrite dot_aligned by reflexivity. fold (Ref.gram X). cbn [rbind].
  destruct (pinv (Ref.gram X)) as [P|e]; cbn [rbind];
    [|left; eexists; reflexivity].
  destruct (Mat.dot P (transpose (Mat.c_ones X))) as [Q|e] eqn:EQ;
    cbn [rbind]; [|left; eexists; reflexivity].
  destruct (Mat.dot_vec Q y) as [[|b c]|e] eqn:Et; cbn [Np.item0];
    try (left; eexists; reflexivity).
  right. exists b, c. split; [reflexivity|]. exists P, Q.
  split; [reflexivity|split; assumption].
Qed.

(** X6. A least-squares [fit] is all or nothing, for any pseudo-inverse
    routine: if it raises, the model, the random source and the output are
    exactly as before the call; if it returns, only the two parameters have
    changed. *)
Theorem fit_least_squares_atomic (X : ndarray) (y : list float) (lr : float)
    (iterations : Z) (w : world) :
  (forall e,
     fst (fit pinv X y "least_squares" lr iterations w) = Raise e ->
     snd (fit pinv X y "least_squares" lr iterations w) = w) /\
  (fst (fit pinv X y "least_squares" lr iterations w) = Ok tt ->
   exists b c,
     snd (fit pinv X y "least_squares" lr iterations w)
     = mk_world (mk_regressor (Some c) (Some b)) (draws w) (drawn w) (out w)).
Proof.
  change (fit pinv X y "least_squares" lr iterations w)
    with (fit_multiple pinv (as_2d X) y w).
  destruct (fit_multiple_cases (as_2d X) y w)
    as [(e & ->)|(b & c & -> & _)]; split; cbn [fst snd].
  - reflexivity.
  - discriminate.
  - discriminate.
  - intros _. exists b, c. reflexivity.
Qed.

End LeastSquares.

Section LeastSquaresThenPredict.

Variable pinv : matrix float -> result (matrix float).

Hypothesis pinv_shape : forall A P,
  pinv A = Ok P -> n_cols P = n_rows A /\ n_rows P = n_cols A.

Lemma fit_multiple_returns X y w :
  fst (fit_multiple pinv X y w) = Ok tt ->
  exists b c,
    snd (fit_multiple pinv X y w)
    = with_self w (mk_regressor (Some c) (Some b)) /\
    length c = n_cols X /\ length y = n_rows X.
Proof.
  intros Hok.
  destruct (fit_multiple_cases pinv X y w)
    as [(e & He)|(b & c & He & P & Q & HP & HQ & Ht)];
    rewrite He in *; [discriminate|].
  exists b, c. split; [reflexivity|].
  destruct (pinv_shape _ _ HP) as [_ HPr].
  destruct (gram_shape X) as [_ HGc].
  unfold Mat.dot in HQ.
  destruct (n_cols P =? n_rows (transpose (Mat.c_ones X)))%nat;
    [|discriminate].
  injection HQ as <-.
  unfold Mat.dot_vec in Ht. cbn [n_cols rows transpose] in Ht.
  destruct (n_rows (Mat.c_ones X) =? length y)%nat eqn:Ey; [|discriminate].
  apply Nat.eqb_eq in Ey. injection Ht as Ht.
  apply (f_equal (@length float)) in Ht. rewrite !length_map in Ht.
  fold (n_rows P) in Ht. cbn [length] in Ht.
  split; [lia|].
  unfold n_rows, Mat.c_ones in Ey. cbn [rows] in Ey.
  rewrite length_map in Ey. symmetry. exact Ey.
Qed.

(** X7. When a least-squares fit returns, [y] had one entry per row of [X]
    and the model has one coefficient per column of [X]; [predict] on any
    2-D input of that many columns, the training matrix included, then
    returns one prediction per row and changes nothing. *)
Theorem predict_after_least_squares (X : matrix float) (y : list float)
    (w : world) (X' : matrix float) :
  fst (fit_multiple pinv X y w) = Ok tt ->
  n_cols X' = n_cols X ->
  length y = n_rows X /\
  exists p,
    predict (Arr2 X') (snd (fit_multiple pinv X y w))
    = (Ok p, snd (fit_multiple pinv X y w)) /\
    length p = n_rows X'.
Proof.
  intros Hok Hn.
  destruct (fit_multiple_returns X y w Hok) as (b & c & -> & Hc & Hy).
  split; [exact Hy|].
  rewrite (predict_2d X' (with_self w (mk_regressor (Some c) (Some b))) b c
             eq_refl), dot_vec_aligned
    by (simpl; congruence).
  eexists. split; [reflexivity|].
  rewrite mat_vec_length. unfold n_rows, Mat.c_ones. cbn [rows].
  apply length_map.
Qed.

End LeastSquaresThenPredict.

Lemma predict_after_least_squares_example :
  exists p,
    predict (Arr2 (mk_matrix 1 [[0%float]; [7%float]]))
      (snd (fit_multiple pinv_diag (mk_matrix 1 [[0%float]]) [3%float]
              (mk_world init (fun _ => 0.5%float) 0 [])))
    = (Ok p, snd (fit_multiple pinv_diag (mk_matrix 1 [[0%float]]) [3%float]
                    (mk_world init (fun _ => 0.5%float) 0 []))) /\
    length p = 2.
Proof.
  apply (predict_after_least_squares pinv_diag pinv_diag_shape
           (mk_matrix 1 [[0%float]]) [3%float]
           (mk_world init (fun _ => 0.5%float) 0 [])
           (mk_matrix 1 [[0%float]; [7%float]])); reflexivity.
Defined.

(* ================================================================= *)
(** ** [fit_gradient_descent]: the MSE trace *)

Section MseTrace.

Variables (X : matrix float) (y : list float) (learning_rate : float).

Hypothesis y_rows : length y = n_rows X.
Hypothesis some_rows : n_rows X <> 0.

Let params := Ref.gd_params X y learning_rate.
Let tenth (k : nat) : bool := (Z.of_nat k mod 10 =? 0)%Z.

(** The loop from an epoch [a >= 1] on: the trace grows by the multiples of
    ten it meets, each with the mean squared residual of the parameters the
    epoch started from. *)
Lemma gd_loop_logged n : forall a loc w b c es ms loc' w',
  self w = mk_regressor (Some c) (Some b) ->
  length c = n_cols X ->
  training_history loc = Some (es, ms) ->
  a <> 0 ->
  for_each (map Z.of_nat (seq a n)) (gd_epoch X y learning_rate) loc w
  = (Ok loc', w') ->
  training_history loc'
  = Some (es ++ map Z.of_nat (filter tenth (seq a n)),
          ms ++ map (fun k => mse_at X y (params (b, c) (k - a)))
                    (filter tenth (seq a n))).
Proof.
  induction n as [|n IH]; intros a loc w b c es ms loc' w' Hs Hc Hth Ha Hrun.
  - simpl in Hrun. injection Hrun as <- _. simpl. now rewrite !app_nil_r.
  - replace (map Z.of_nat (seq a (S n)))
      with (Z.of_nat a :: map Z.of_nat (seq (S a) n)) in Hrun by reflexivity.
    cbn [for_each] in Hrun. unfold bind in Hrun.
    rewrite (gd_epoch_run X y learning_rate y_rows some_rows
               (Z.of_nat a) loc w b c Hs Hc) in Hrun
      by (right; rewrite Hth; discriminate).
    destruct (Ref.gd_step X y learning_rate (b, c)) as [b' c'] eqn:Es.
    assert (Hc' : length c' = n_cols X).
    { change c' with (snd (b', c')). rewrite <- Es.
      now apply gd_step_length. }
    cbn [fst snd] in Hrun.
    assert (Hlog : Ref.log_mse (Z.of_nat a)
                     (Np.mean (Np.square (Ref.residual X y (b, c))))
                     (training_history loc)
                   = Some (es ++ (if tenth a then [Z.of_nat a] else []),
                           ms ++ (if tenth a then [mse_at X y (b, c)]
                                  else []))).
    { unfold Ref.log_mse, tenth. rewrite Hth.
      destruct (Z.of_nat a mod 10 =? 0)%Z.
      - replace (Z.of_nat a =? 0)%Z with false
          by (symmetry; apply Z.eqb_neq; lia).
        reflexivity.
      - now rewrite !app_nil_r. }
    rewrite Hlog in Hrun.
    apply (IH (S a) _ _ b' c'
             (es ++ (if tenth a then [Z.of_nat a] else []))
             (ms ++ (if tenth a then [mse_at X y (b, c)] else []))) in Hrun;
      [|reflexivity|exact Hc'|reflexivity|discriminate].
    rewrite Hrun.
    cbn [seq filter]. rewrite <- !app_assoc. f_equal. f_equal.
    + destruct (tenth a); reflexivity.
    + assert (Hext : map (fun k => mse_at X y (params (b', c') (k - S a)))
                         (filter tenth (seq (S a) n))
                     = map (fun k => mse_at X y (params (b, c) (k - a)))
                           (filter tenth (seq (S a) n))).
      { apply map_ext_in. intros k Hk. apply filter_In in Hk as [Hk _].
        apply in_seq in Hk. rewrite <- Es.
        unfold params. rewrite (gd_params_shift X y learning_rate).
        f_equal. f_equal. lia. }
      rewrite Hext. destruct (tenth a); [|reflexivity].
      cbn [map app]. now rewrite Nat.sub_diag.
Qed.

Lemma gd_train_logged iterations w loc w1 :
  (1 <= iterations)%Z ->
  gd_train X y learning_rate iterations w = (Ok loc, w1) ->
  training_history loc
  = Some (map Z.of_nat (logged_epochs (Z.to_nat iterations)),
          map (fun k => mse_at X y (params (Ref.gd_start w (n_cols X)) k))
              (logged_epochs (Z.to_nat iterations))).
Proof.
  intros Hit Hrun. unfold gd_train, py_range in Hrun.
  destruct (Z.to_nat iterations) as [|n] eqn:EN; [lia|].
  replace (map Z.of_nat (seq 0 (S n)))
    with (Z.of_nat 0 :: map Z.of_nat (seq 1 n)) in Hrun by reflexivity.
  cbn [for_each] in Hrun.
  unfold bind at 1 in Hrun. unfold random_rand_n at 1 in Hrun.
  unfold bind at 1 in Hrun. unfold set_coefficients at 1 in Hrun.
  unfold bind at 1 in Hrun. unfold random_rand at 1 in Hrun.
  unfold bind at 1 in Hrun. unfold set_intercept at 1 in Hrun.
  unfold with_self in Hrun.
  cbn [self draws drawn out coefficients intercept] in Hrun.
  unfold bind at 1 in Hrun.
  rewrite (gd_epoch_run X y learning_rate y_rows some_rows (Z.of_nat 0)
             (mk_locals [] [] None)
             (mk_world
                (mk_regressor
                   (Some (map (fun u => u * 0.01)%float
                              (map (draws w) (seq (drawn w) (n_cols X)))))
                   (Some (draws w (drawn w + n_cols X) * 0.01)%float))
                (draws w) (S (drawn w + n_cols X)) (out w))
             (draws w (drawn w + n_cols X) * 0.01)%float
             (map (fun u => u * 0.01)%float
                  (map (draws w) (seq (drawn w) (n_cols X))))
             eq_refl) in Hrun.
  2,3: first [now rewrite !length_map, length_seq | left; reflexivity].
  cbv beta iota zeta in Hrun.
  change (draws w (drawn w + n_cols X) * 0.01,
          map (fun u => u * 0.01)
            (map (draws w) (seq (drawn w) (n_cols X))))%float
    with (Ref.gd_start w (n_cols X)) in Hrun.
  destruct (Ref.gd_step X y learning_rate (Ref.gd_start w (n_cols X)))
    as [b' c'] eqn:Es.
  assert (Hc' : length c' = n_cols X).
  { change c' with (snd (b', c')). rewrite <- Es.
    apply (gd_step_length X y learning_rate y_rows some_rows).
    apply gd_start_length. }
  cbn [fst snd] in Hrun.
  apply (gd_loop_logged n 1 _ _ b' c' [0%Z]
           [mse_at X y (Ref.gd_start w (n_cols X))]) in Hrun;
    [|reflexivity|exact Hc'|reflexivity|discriminate].
  rewrite Hrun.
  unfold logged_epochs. cbn [seq filter].
  change (Z.of_nat 0 mod 10 =? 0)%Z with true. cbv iota.
  cbn [map app]. fold tenth. f_equal. f_equal. f_equal.
  apply map_ext_in. intros k Hk. apply filter_In in Hk as [Hk _].
  apply in_seq in Hk. rewrite <- Es.
  unfold params. rewrite (gd_params_shift X y learning_rate).
  f_equal. f_equal. lia.
Qed.

(** X8. In a gradient-descent fit of [iterations >= 1] epochs on matching
    shapes, the MSE trace holds exactly the epochs [0, 10, 20, ...] below
    [iterations], and the value logged for epoch [k] is the mean squared
    residual of the parameters after [k] steps, that is before the update
    of epoch [k]; these pairs are also what is printed, in order, before any
    plot. *)
Theorem mse_trace_every_tenth_epoch (iterations : Z) (w : world) :
  (1 <= iterations)%Z ->
  exists loc w1,
    gd_train X y learning_rate iterations w = (Ok loc, w1) /\
    training_history loc
    = Some (map Z.of_nat (logged_epochs (Z.to_nat iterations)),
            map (fun k => mse_at X y
                   (Ref.gd_params X y learning_rate
                      (Ref.gd_start w (n_cols X)) k))
                (logged_epochs (Z.to_nat iterations))) /\
    out w1
    = out w ++ map (fun k => print_mse (Z.of_nat k)
                      (mse_at X y (Ref.gd_params X y learning_rate
                                     (Ref.gd_start w (n_cols X)) k)))
                   (logged_epochs (Z.to_nat iterations)) /\
    (forall k, In k (logged_epochs (Z.to_nat iterations)) <->
               k < Z.to_nat iterations /\ (Z.of_nat k mod 10 = 0)%Z).
Proof.
  intros Hit.
  destruct (gd_train_run X y learning_rate y_rows some_rows iterations w)
    as (th & Hrun & _).
  pose proof (gd_train_logged iterations w _ _ Hit Hrun) as Hth.
  cbn [training_history] in Hth. subst th.
  eexists. eexists. split; [exact Hrun|]. split; [reflexivity|]. split.
  - cbn [out Ref.prints]. f_equal.
    generalize (logged_epochs (Z.to_nat iterations)). intros l.
    induction l as [|k l IHl]; [reflexivity|].
    cbn [map Np.zip_with]. now rewrite IHl.
  - intros k. unfold logged_epochs. rewrite filter_In, in_seq, Z.eqb_eq.
    intuition lia.
Qed.

End MseTrace.

Lemma mse_trace_every_tenth_epoch_example :
  exists loc w1,
    gd_train (mk_matrix 1 [[1]; [2]; [3]]%float) [5; 8; 11]%float 0.1%float 25
      (mk_world init (fun _ => 0.5%float) 0 []) = (Ok loc, w1) /\
    option_map fst (training_history loc) = Some [0; 10; 20]%Z.
Proof.
  destruct (mse_trace_every_tenth_epoch (mk_matrix 1 [[1]; [2]; [3]]%float)
              [5; 8; 11]%float 0.1%float eq_refl (fun E => O_S _ (eq_sym E))
              25 (mk_world init (fun _ => 0.5%float) 0 []))
    as (loc & w1 & Hrun & Hth & _).
  - discriminate.
  - exists loc, w1. split; [exact Hrun|]. rewrite Hth. reflexivity.
Defined.

(* ================================================================= *)
(** ** [evaluate_regression]: shapes *)

(** X9. [evaluate_regression] on vectors of different lengths, neither of
    them of length one, raises NumPy's broadcasting error at its first
    subtraction and returns no metric. *)
Theorem evaluate_regression_mismatch (y_true y_pred : list float) :
  length y_true <> length y_pred ->
  length y_true <> 1 ->
  length y_pred <> 1 ->
  evaluate_regression y_true y_pred = Raise (ValueError operands_not_broadcast).
Proof.
  intros Hne Ht Hp. unfold evaluate_regression, Np.subtract, Np.broadcast.
  apply Nat.eqb_neq in Hne. rewrite Hne.
  destruct y_true as [|a [|a' t]], y_pred as [|b [|b' p]];
    simpl in *; try reflexivity; congruence.
Qed.

Lemma evaluate_regression_mismatch_example :
  evaluate_regression [1; 2; 3]%float [1; 2]%float
  = Raise (ValueError operands_not_broadcast).
Proof.
  apply (evaluate_regression_mismatch [1; 2; 3]%float [1; 2]%float);
    discriminate.
Defined.

Lemma subtract_single (v : list float) (c : float) :
  Np.subtract v [c] = Np.subtract v (map (fun _ => c) v).
Proof.
  unfold Np.subtract.
  rewrite (broadcast_same_length _ v (map (fun _ => c) v))
    by (now rewrite length_map).
  assert (Hzip : Np.zip_with PrimFloat.sub v (map (fun _ => c) v)
                 = map (fun x => x - c)%float v).
  { induction v as [|a v IH]; simpl; congruence. }
  rewrite Hzip. unfold Np.broadcast.
  destruct v as [|a [|a' v']]; reflexivity.
Qed.

(** X10. A one-entry [y_pred] is not rejected: it is broadcast, so the
    metrics are those of the constant prediction of that value for every
    entry of [y_true], whatever the length of [y_true]. *)
Theorem evaluate_regression_single_prediction (y_true : list float)
    (c : float) :
  evaluate_regression y_true [c]
  = evaluate_regression y_true (map (fun _ => c) y_true).
Proof.
  unfold evaluate_regression. now rewrite !subtract_single.
Qed.

(* ================================================================= *)
(** ** binary64 facts: opposites *)

Section Binary64Algebra.

Local Open Scope float_scope.

Lemma binary_round_aux_opp sx m e l :
  binary_round_aux prec emax (negb sx) m e l
  = SFopp (binary_round_aux prec emax sx m e l).
Proof.
  unfold binary_round_aux.
  destruct (shr_fexp prec emax m e l) as [mrs' e'].
  destruct (shr_fexp prec emax _ e' loc_Exact) as [mrs'' e''].
  destruct (shr_m mrs''); try reflexivity.
  destruct (e'' <=? emax - prec)%Z; reflexivity.
Qed.

Lemma binary_normalize_opp z e :
  binary_normalize prec emax (- z) e false
  = match z with
    | Z0 => S754_zero false
    | _ => SFopp (binary_normalize prec emax z e false)
    end.
Proof.
  destruct z as [|p|p]; cbn [Z.opp binary_normalize]; try reflexivity;
    unfold binary_round; destruct (shl_align _ _ _) as [mz ez].
  - apply (binary_round_aux_opp false).
  - apply (binary_round_aux_opp true).
Qed.

(** [b - a] is [a - b] or its opposite. *)
Lemma SFsub_swap x y :
  SF64sub y x = SF64sub x y \/ SF64sub y x = SFopp (SF64sub x y).
Proof.
  unfold SF64sub, SFsub.
  destruct x as [sx|sx| |sx mx ex], y as [sy|sy| |sy my ey];
    try solve [ left; reflexivity | right; reflexivity
              | destruct sx; solve [left; reflexivity | right; reflexivity]
              | destruct sy; solve [left; reflexivity | right; reflexivity]
              | destruct sx, sy;
                solve [left; reflexivity | right; reflexivity] ].
  rewrite (Z.min_comm ey ex).
  set (a := cond_Zopp sx (Zpos (fst (shl_align mx ex (Z.min ex ey))))).
  set (b := cond_Zopp sy (Zpos (fst (shl_align my ey (Z.min ex ey))))).
  replace (b - a)%Z with (- (a - b))%Z by lia.
  rewrite binary_normalize_opp.
  destruct (a - b)%Z; [left|right|right]; reflexivity.
Qed.

Lemma SFabs_opp x : SFabs (SFopp x) = SFabs x.
Proof. destruct x; reflexivity. Qed.

Lemma SFmul_opp_opp x : SF64mul (SFopp x) (SFopp x) = SF64mul x x.
Proof.
  unfold SF64mul.
  destruct x as [s|s| |s m e]; try reflexivity; destruct s; reflexivity.
Qed.

Lemma abs_sub_swap a b : abs (a - b) = abs (b - a).
Proof.
  apply Prim2SF_inj. rewrite !abs_spec, !sub_spec.
  destruct (SFsub_swap (Prim2SF a) (Prim2SF b)) as [E|E]; rewrite E; auto.
  symmetry. apply SFabs_opp.
Qed.

Lemma square_sub_swap a b : (a - b) * (a - b) = (b - a) * (b - a).
Proof.
  apply Prim2SF_inj. rewrite !mul_spec, !sub_spec.
  destruct (SFsub_swap (Prim2SF a) (Prim2SF b)) as [E|E]; rewrite E; auto.
  symmetry. apply SFmul_opp_opp.
Qed.

End Binary64Algebra.

(* ================================================================= *)
(** ** [evaluate_regression]: the order of its arguments *)

Lemma square_residual_swap (u v : list float) :
  Np.square (Np.zip_with PrimFloat.sub u v)
  = Np.square (Np.zip_with PrimFloat.sub v u).
Proof.
  unfold Np.square. revert v.
  induction u as [|a u IH]; intros [|b v]; simpl; auto.
  now rewrite IH, square_sub_swap.
Qed.

Lemma abs_residual_swap (u v : list float) :
  map PrimFloat.abs (Np.zip_with PrimFloat.sub u v)
  = map PrimFloat.abs (Np.zip_with PrimFloat.sub v u).
Proof.
  revert v. induction u as [|a u IH]; intros [|b v]; simpl; auto.
  now rewrite IH, abs_sub_swap.
Qed.

Lemma multiply_square (v : list float) :
  Np.multiply v v = Ok (Np.square v).
Proof.
  unfold Np.multiply. rewrite broadcast_same_length by reflexivity.
  now rewrite zip_with_same.
Qed.

(** X11. On two vectors of one length, [evaluate_regression] never raises,
    and its RMSE and MAE do not depend on which vector is passed as
    [y_true]: swapping the arguments can change [R2] only. *)
Theorem evaluate_regression_swap (y_true y_pred : list float) :
  length y_true = length y_pred ->
  exists r r' rmse mae,
    evaluate_regression y_true y_pred
    = Ok [("R2", r); ("RMSE", rmse); ("MAE", mae)] /\
    evaluate_regression y_pred y_true
    = Ok [("R2", r'); ("RMSE", rmse); ("MAE", mae)].
Proof.
  intros Hlen. unfold evaluate_regression, Np.subtract.
  rewrite !(broadcast_same_length _ y_true y_pred) by exact Hlen.
  rewrite !(broadcast_same_length _ y_pred y_true) by (symmetry; exact Hlen).
  cbn [rbind]. rewrite !multiply_square. cbn [rbind].
  rewrite (square_residual_swap y_pred y_true).
  rewrite (abs_residual_swap y_pred y_true).
  do 4 eexists. split; reflexivity.
Qed.

Lemma evaluate_regression_swap_example :
  exists r r' rmse mae,
    evaluate_regression [1; 2; 4]%float [1; 3; 3]%float
    = Ok [("R2", r); ("RMSE", rmse); ("MAE", mae)] /\
    evaluate_regression [1; 3; 3]%float [1; 2; 4]%float
    = Ok [("R2", r'); ("RMSE", rmse); ("MAE", mae)].
Proof.
  apply (evaluate_regression_swap [1; 2; 4]%float [1; 3; 3]%float).
  reflexivity.
Defined.

(* ================================================================= *)
(** ** [one_hot_encode]: further properties *)

Lemma transpose_involutive {A} (X : matrix A) :
  wf X -> transpose (transpose X) = X.
Proof.
  intros Hwf. destruct X as [n rs].
  unfold transpose at 1. unfold n_rows at 1.
  rewrite (columns_transpose n rs Hwf).
  unfold transpose. cbn [rows n_cols]. now rewrite columns_length.
Qed.

Lemma column_map_matrix {A B} (f : A -> B) (X : matrix A) (j : nat) :
  column j (map_matrix f X) = map f (column j X).
Proof.
  unfold column, map_matrix. cbn [rows].
  induction (rows X) as [|r rs IH]; simpl; auto.
  rewrite map_app, IH, nth_error_map. f_equal.
  destruct (nth_error r j); reflexivity.
Qed.

Lemma in_column {A} (X : matrix A) (j : nat) (x : A) :
  In x (column j X) -> exists r, In r (rows X) /\ In x r.
Proof.
  unfold column. intros Hin. apply in_flat_map in Hin as (r & Hr & Hx).
  exists r. split; auto.
  destruct (nth_error r j) as [a|] eqn:E; [|contradiction].
  destruct Hx as [<-|[]]. eapply nth_error_In; eassumption.
Qed.

Section EncoderMore.

Context {C : Type} `{Dtype C}.

Lemma astype_float_map (f : C -> float) (v : list C) :
  (forall x, In x v -> elem_float x = Ok (f x)) ->
  astype_float v = Ok (map f v).
Proof.
  induction v as [|x v IH]; intros Hf; simpl; auto.
  rewrite (Hf x) by (now left). simpl.
  rewrite IH by (intros x' Hx'; apply Hf; now right). reflexivity.
Qed.

Lemma for_each_r_ext {A S} (l : list A) (f g : A -> S -> result S) (s : S) :
  (forall a s', In a l -> f a s' = g a s') ->
  for_each_r l f s = for_each_r l g s.
Proof.
  revert s; induction l as [|a l IH]; intros s Hfg; simpl; auto.
  rewrite (Hfg a s) by (now left).
  destruct (g a s) as [s1|e]; simpl; auto.
  apply IH. intros a' s' Ha'. apply Hfg. now right.
Qed.

(** X13. The encoder looks at [categorical_indices] only to ask, for each
    column index of [X], whether it occurs: two index lists with the same
    in-range members give the same result, so order and repetitions do not
    matter, and an index that is negative or not below the number of
    columns is ignored (a negative index does not count from the end). *)
Theorem one_hot_encode_indices (X : matrix C)
    (categorical_indices categorical_indices' : list Z) (drop_first : bool)
    (z : Z) :
  (forall i, i < n_cols X ->
     is_categorical categorical_indices i
     = is_categorical categorical_indices' i) ->
  (z < 0 \/ Z.of_nat (n_cols X) <= z)%Z ->
  one_hot_encode X categorical_indices drop_first
  = one_hot_encode X categorical_indices' drop_first /\
  one_hot_encode X (z :: categorical_indices) drop_first
  = one_hot_encode X categorical_indices drop_first.
Proof.
  intros Hsame Hz.
  assert (Hgen : forall cs cs',
    (forall i, i < n_cols X -> is_categorical cs i = is_categorical cs' i) ->
    one_hot_encode X cs drop_first = one_hot_encode X cs' drop_first).
  { intros cs cs' Hcs. unfold one_hot_encode. f_equal.
    apply for_each_r_ext. intros a s' Ha. unfold py_range in Ha.
    rewrite Nat2Z.id in Ha. apply in_map_iff in Ha as (i & <- & Hi).
    apply in_seq in Hi. unfold encode_step.
    change (existsb (Z.eqb (Z.of_nat i)) cs) with (is_categorical cs i).
    change (existsb (Z.eqb (Z.of_nat i)) cs') with (is_categorical cs' i).
    rewrite (Hcs i) by lia. reflexivity. }
  split; [now apply Hgen|].
  apply Hgen. intros i Hi. unfold is_categorical. cbn [existsb].
  replace (Z.of_nat i =? z)%Z with false; [reflexivity|].
  symmetry. apply Z.eqb_neq. lia.
Qed.

End EncoderMore.

Lemma one_hot_encode_indices_example :
  @one_hot_encode string (str_dtype float_of_digits)
    (mk_matrix 2 [["a"; "1"]; ["b"; "2"]]) [0%Z; 0%Z; 7%Z] false
  = @one_hot_encode string (str_dtype float_of_digits)
      (mk_matrix 2 [["a"; "1"]; ["b"; "2"]]) [0%Z] false /\
  @one_hot_encode string (str_dtype float_of_digits)
    (mk_matrix 2 [["a"; "1"]; ["b"; "2"]]) [(-1)%Z; 0%Z; 0%Z; 7%Z] false
  = @one_hot_encode string (str_dtype float_of_digits)
      (mk_matrix 2 [["a"; "1"]; ["b"; "2"]]) [0%Z; 0%Z; 7%Z] false.
Proof.
  apply (@one_hot_encode_indices string (str_dtype float_of_digits)
           (mk_matrix 2 [["a"; "1"]; ["b"; "2"]]) [0%Z; 0%Z; 7%Z] [0%Z]
           false (-1)%Z).
  - intros [|[|i]] Hi; try reflexivity. simpl in Hi. lia.
  - left. reflexivity.
Defined.

Section EncoderCast.

Context {C : Type} `{Dtype C}.

Variables (X : matrix C) (categorical_indices : list Z) (drop_first : bool).

Lemma encoded_columns_numeric (numeric : nat -> list float) :
  (forall i, i < n_cols X -> is_categorical categorical_indices i = false) ->
  encoded_columns X categorical_indices drop_first numeric
  = map numeric (seq 0 (n_cols X)).
Proof.
  intros Hnum. unfold encoded_columns.
  rewrite flat_map_concat_map.
  rewrite (map_ext_in _ (fun i => [numeric i])).
  - generalize (seq 0 (n_cols X)). intros l.
    induction l as [|i l IH]; simpl; congruence.
  - intros i Hi. apply in_seq in Hi. unfold encoded_block.
    now rewrite Hnum by lia.
Qed.

(** X14. With no column of [X] marked categorical, [one_hot_encode] is the
    cast alone: on a well-formed [X] with at least one column, all of whose
    entries convert to float, it returns [X] with every entry converted, in
    the same shape and order, whatever [drop_first] is. *)
Theorem one_hot_encode_numeric (f : C -> float) :
  wf X ->
  n_cols X <> 0 ->
  (forall i, i < n_cols X -> is_categorical categorical_indices i = false) ->
  (forall r x, In r (rows X) -> In x r -> elem_float x = Ok (f x)) ->
  one_hot_encode X categorical_indices drop_first = Ok (map_matrix f X).
Proof.
  intros Hwf Hn Hnum Hf.
  assert (Hcast : forall i, i < n_cols X ->
            is_categorical categorical_indices i = false ->
            astype_float (column i X) = Ok (map f (column i X))).
  { intros i _ _. apply astype_float_map. intros x Hx.
    apply in_column in Hx as (r & Hr & Hx). eapply Hf; eassumption. }
  assert (Hcols : encoded_columns X categorical_indices drop_first
                    (fun i => map f (column i X))
                  = columns (map_matrix f X)).
  { rewrite encoded_columns_numeric by exact Hnum.
    unfold columns. cbn [map_matrix n_cols].
    apply map_ext. intros i. now rewrite column_map_matrix. }
  rewrite (one_hot_encode_stack X categorical_indices drop_first
             (fun i => map f (column i X)) Hwf Hcast).
  - rewrite Hcols.
    replace (n_rows X) with (n_rows (map_matrix f X))
      by (unfold n_rows, map_matrix; cbn [rows]; apply length_map).
    fold (transpose (map_matrix f X)). f_equal.
    apply transpose_involutive.
    unfold wf, map_matrix. cbn [rows n_cols].
    apply Forall_forall. intros r Hr. apply in_map_iff in Hr as (r0 & <- & Hr0).
    rewrite length_map. unfold wf in Hwf. rewrite Forall_forall in Hwf.
    now apply Hwf.
  - rewrite Hcols. unfold columns. cbn [map_matrix n_cols].
    destruct (n_cols X); [contradiction|discriminate].
Qed.

End EncoderCast.

Lemma one_hot_encode_numeric_example :
  @one_hot_encode string (str_dtype float_of_digits)
    (mk_matrix 2 [["1"; "20"]; ["3"; "40"]]) [] true
  = Ok (mk_matrix 2 [[1; 20]; [3; 40]]%float).
Proof.
  apply (@one_hot_encode_numeric string (str_dtype float_of_digits)
           (mk_matrix 2 [["1"; "20"]; ["3"; "40"]]) [] true
           (fun s => match float_of_digits s with
                     | Some x => x
                     | None => 0%float
                     end)).
  - repeat constructor.
  - discriminate.
  - reflexivity.
  - intros r x [<-|[<-|[]]] [<-|[<-|[]]]; reflexivity.
Defined.

Section OneHotRows.

Context {C : Type} `{LawfulDtype C}.

Lemma unique_NoDup (v : list C) : NoDup (unique v).
Proof.
  pose proof (unique_sorted v) as Hs.
  induction Hs as [|x l _ IH Hx]; constructor; auto.
  intros Hin. rewrite Forall_forall in Hx. specialize (Hx x Hin).
  cbv beta in Hx. now rewrite elem_ltb_irrefl in Hx.
Qed.

Lemma indicator_nth (col : list C) (c d : C) (r : nat) :
  r < length col ->
  nth r (indicator col c) 0%float
  = if elem_eqb (nth r col d) c then 1%float else 0%float.
Proof.
  intros Hr. unfold indicator.
  rewrite (nth_indep _ 0%float
             ((fun x => if elem_eqb x c then 1%float else 0%float) d))
    by (now rewrite length_map).
  apply (map_nth (fun x => if elem_eqb x c then 1%float else 0%float)).
Qed.

(** X15. The indicator columns of a categorical column are one-hot: in
    every row exactly one of them is [1.0], the one of the row's own value,
    and the others are [0.0].  With [drop_first] the first category has no
    column, so the rows that hold it are all [0.0] and every other row
    still has exactly one [1.0]. *)
Theorem indicator_columns_one_hot (col : list C) (r : nat) (d : C) :
  r < length col ->
  exists k,
    nth_error (unique col) k = Some (nth r col d) /\
    (forall j c, nth_error (kept_categories false col) j = Some c ->
       nth r (indicator col c) 0%float
       = if (j =? k)%nat then 1%float else 0%float) /\
    (forall j c, nth_error (kept_categories true col) j = Some c ->
       nth r (indicator col c) 0%float
       = if (S j =? k)%nat then 1%float else 0%float).
Proof.
  intros Hr.
  assert (Hin : In (nth r col d) (unique col)).
  { apply unique_In. now apply nth_In. }
  apply In_nth_error in Hin as (k & Hk). exists k. split; [exact Hk|].
  assert (Hrow : forall j c, nth_error (unique col) j = Some c ->
            nth r (indicator col c) 0%float
            = if (j =? k)%nat then 1%float else 0%float).
  { intros j c Hj. rewrite (indicator_nth col c d r Hr).
    destruct (j =? k)%nat eqn:Ejk.
    - apply Nat.eqb_eq in Ejk. subst j.
      assert (E : nth r col d = c) by congruence.
      apply elem_eqb_eq in E. now rewrite E.
    - destruct (elem_eqb (nth r col d) c) eqn:E; [|reflexivity].
      apply elem_eqb_eq in E. apply Nat.eqb_neq in Ejk. exfalso. apply Ejk.
      apply (proj1 (NoDup_nth_error (unique col)) (unique_NoDup col)).
      + apply nth_error_Some. congruence.
      + congruence. }
  split.
  - exact Hrow.
  - intros j c Hj. apply Hrow. unfold kept_categories in Hj.
    destruct (unique col); [destruct j; discriminate|exact Hj].
Qed.

End OneHotRows.

Lemma indicator_columns_one_hot_example :
  exists k,
    nth_error (@unique string (str_dtype float_of_digits) ["b"; "a"; "b"; "c"]) k
    = Some "b" /\
    (forall j c,
       nth_error (@kept_categories string (str_dtype float_of_digits) false
                    ["b"; "a"; "b"; "c"]) j = Some c ->
       nth 2 (@indicator string (str_dtype float_of_digits)
                ["b"; "a"; "b"; "c"] c) 0%float
       = if (j =? k)%nat then 1%float else 0%float) /\
    (forall j c,
       nth_error (@kept_categories string (str_dtype float_of_digits) true
                    ["b"; "a"; "b"; "c"]) j = Some c ->
       nth 2 (@indicator string (str_dtype float_of_digits)
                ["b"; "a"; "b"; "c"] c) 0%float
       = if (S j =? k)%nat then 1%float else 0%float).
Proof.
  apply (@indicator_columns_one_hot string (str_dtype float_of_digits)
           (str_dtype_lawful float_of_digits) ["b"; "a"; "b"; "c"] 2 "").
  simpl. lia.
Defined.

Section EncoderErrors.

Context {C : Type} `{Dtype C}.

Variables (X : matrix C) (categorical_indices : list Z) (drop_first : bool).
Variable numeric : nat -> list float.

Lemma for_each_r_app {A S} (l l' : list A) (f : A -> S -> result S) (s : S) :
  for_each_r (l ++ l') f s = rbind (for_each_r l f s) (for_each_r l' f).
Proof.
  revert s; induction l as [|a l IH]; intros s; simpl; auto.
  destruct (f a s); simpl; auto.
Qed.

Lemma encode_prefix n : forall a acc,
  (forall j, a <= j < a + n -> is_categorical categorical_indices j = false ->
             astype_float (column j X) = Ok (numeric j)) ->
  for_each_r (map Z.of_nat (seq a n))
    (encode_step X categorical_indices drop_first) acc
  = Ok (acc ++ flat_map (encoded_block X categorical_indices drop_first numeric)
                        (seq a n)).
Proof.
  induction n as [|n IH]; intros a acc Hcast; simpl.
  - now rewrite app_nil_r.
  - assert (Hstep : encode_step X categorical_indices drop_first
                      (Z.of_nat a) acc
                    = Ok (acc ++ encoded_block X categorical_indices
                                   drop_first numeric a)).
    { unfold encode_step, encoded_block, is_categorical. rewrite Nat2Z.id.
      destruct (existsb (Z.eqb (Z.of_nat a)) categorical_indices) eqn:E.
      - apply indicator_columns.
      - rewrite (Hcast a) by (auto; lia). reflexivity. }
    rewrite Hstep. simpl. rewrite IH.
    + now rewrite <- app_assoc.
    + intros j Hj. apply Hcast. lia.
Qed.

(** X16. If column [i] is the first column not marked categorical that does
    not convert to float, [one_hot_encode] raises the error of that
    conversion, whatever the later columns hold: nothing is returned for
    the columns already encoded. *)
Theorem one_hot_encode_cast_error (i : nat) (e : exn) :
  i < n_cols X ->
  is_categorical categorical_indices i = false ->
  astype_float (column i X) = Raise e ->
  (forall j, j < i -> is_categorical categorical_indices j = false ->
             astype_float (column j X) = Ok (numeric j)) ->
  one_hot_encode X categorical_indices drop_first = Raise e.
Proof.
  intros Hi Hcat Hfail Hbefore.
  unfold one_hot_encode, py_range. rewrite Nat2Z.id.
  replace (n_cols X) with (i + S (n_cols X - S i)) by lia.
  rewrite seq_app, map_app, for_each_r_app.
  rewrite encode_prefix by (intros j Hj; apply Hbefore; lia).
  cbn [rbind seq map for_each_r plus].
  unfold encode_step at 1. rewrite Nat2Z.id.
  change (existsb (Z.eqb (Z.of_nat i)) categorical_indices)
    with (is_categorical categorical_indices i).
  rewrite Hcat, Hfail. reflexivity.
Qed.

End EncoderErrors.

Lemma one_hot_encode_cast_error_example :
  @one_hot_encode string (str_dtype float_of_digits)
    (mk_matrix 3 [["a"; "1"; "x"]; ["b"; "2"; "7"]]) [0%Z] false
  = Raise (ValueError (could_not_convert "x")).
Proof.
  apply (@one_hot_encode_cast_error string (str_dtype float_of_digits)
           (mk_matrix 3 [["a"; "1"; "x"]; ["b"; "2"; "7"]]) [0%Z] false
           (fun _ => [1; 2]%float) 2).
  - repeat constructor.
  - reflexivity.
  - reflexivity.
  - intros [|[|j]] Hj E; try discriminate; [reflexivity|lia].
Defined.

Section EncoderWidth.

Context {C : Type} `{Dtype C}.

Variables (X : matrix C) (categorical_indices : list Z) (drop_first : bool).
Variable numeric : nat -> list float.

Hypothesis X_wf : wf X.
Hypothesis castable : forall i,
  i < n_cols X -> is_categorical categorical_indices i = false ->
  astype_float (column i X) = Ok (numeric i).

(** X17. The width of the encoded matrix: every column of [X] that is not
    categorical counts one, and a categorical column counts its number of
    distinct values, less one under [drop_first] (a column without rows
    counts zero).  The height is that of [X]. *)
Theorem one_hot_encode_shape (M : matrix float) :
  one_hot_encode X categorical_indices drop_first = Ok M ->
  n_rows M = n_rows X /\
  n_cols M
  = list_sum
      (map (fun i =>
              if is_categorical categorical_indices i
              then length (unique (column i X))
                   - (if drop_first then 1 else 0)
              else 1)
           (seq 0 (n_cols X))).
Proof.
  intros Hok.
  destruct (encoded_columns X categorical_indices drop_first numeric)
    as [|c0 cols] eqn:E.
  - rewrite (one_hot_encode_empty X categorical_indices drop_first numeric
               castable E) in Hok. discriminate.
  - rewrite (one_hot_encode_stack X categorical_indices drop_first numeric
               X_wf castable) in Hok by (rewrite E; discriminate).
    injection Hok as <-. split.
    + unfold n_rows at 1. unfold transpose. cbn [rows].
      now rewrite columns_length.
    + unfold transpose. cbn [n_cols]. unfold n_rows. cbn [rows].
      unfold encoded_columns. rewrite flat_map_concat_map.
      rewrite length_concat, map_map. f_equal.
      apply map_ext. intros i. unfold encoded_block, kept_categories.
      destruct (is_categorical categorical_indices i); [|reflexivity].
      rewrite length_map.
      destruct drop_first; [|lia].
      destruct (unique (column i X)); simpl; lia.
Qed.

End EncoderWidth.

Lemma one_hot_encode_shape_example :
  n_rows (mk_matrix 3 [[1; 10; 0]; [0; 20; 1]; [1; 30; 0]]%float) = 3 /\
  n_cols (mk_matrix 3 [[1; 10; 0]; [0; 20; 1]; [1; 30; 0]]%float) = 3.
Proof.
  apply (@one_hot_encode_shape string (str_dtype float_of_digits)
           (mk_matrix 3 [["b"; "10"; "x"]; ["a"; "20"; "y"]; ["b"; "30"; "x"]])
           [0%Z; 2%Z] true (fun _ => [10; 20; 30]%float)).
  - repeat constructor.
  - intros [|[|[|i]]] Hi E; try discriminate; [reflexivity|].
    simpl in Hi. lia.
  - reflexivity.
Defined.

(* ================================================================= *)
(** ** [fit_gradient_descent]: no warm start *)

(** X18. A gradient-descent fit starts afresh: its outcome, the result, the
    model, the random numbers consumed and the output, is the same whatever
    parameters the estimator held before the call, fitted or not. *)
Theorem fit_gradient_descent_fresh_start (X : matrix float) (y : list float)
    (lr : float) (iterations : Z) (w : world) (s1 s2 : LinearRegressor) :
  fit_gradient_descent X y lr iterations (with_self w s1)
  = fit_gradient_descent X y lr iterations (with_self w s2).
Proof.
  unfold fit_gradient_descent, gd_train, bind, random_rand_n,
    set_coefficients, random_rand, set_intercept, with_self.
  cbn [self draws drawn out coefficients intercept]. reflexivity.
Qed.
